(** * pipecat-conversation-relay-transport: the relay halves and the session façade

    A shallow embedding of [input_transport.py], [output_transport.py],
    [transport.py], [types.py] and [twiml.py] of the package
    [pipecat_conversation_relay], with the properties of the transport
    stated over it.

    Conventions.
    - A Python [str] is a Rocq [string]; a character stands for the code
      point of the same number (U+0000..U+00FF).
    - A Python [dict] with string keys is a [gmap string _];
      [d.get(k)] is [d !! k], [d.get(k, v)] is [default v (d !! k)].
    - [async] methods are run to completion: a method is a function from
      the object's fields to its outcome, the fields afterwards and the
      trace of calls it made on its collaborators (socket, pipeline,
      callbacks, task scheduler), in program order.
    - Calls to [logger] have no effect on any of this and are left out. *)

From Stdlib Require Import ZArith QArith Ascii String.
From stdpp Require Import base option list strings gmap.

Local Set Warnings "-register-all".
Local Open Scope string_scope.
Local Open Scope list_scope.

(** ** Python values *)

Module Py.

(** What [json.loads] returns, and what the relay puts in its frames and
    events: [None], [bool], [int], [float], [str], [list], [dict]. *)
Inductive value : Type :=
| VNone
| VBool (b : bool)
| VInt (z : Z)
| VFloat (q : Q)
| VStr (s : string)
| VList (l : list value)
| VDict (d : gmap string value).

(** Truth value testing, as [if x:] and [not x] do it. *)
Definition truthy (v : value) : bool :=
  match v with
  | VNone => false
  | VBool b => b
  | VInt z => negb (z =? 0)%Z
  | VFloat q => negb (Qeq_bool q 0)
  | VStr s => negb (String.eqb s "")
  | VList l => match l with [] => false | _ :: _ => true end
  | VDict d => negb (bool_decide (size d = 0%nat))
  end.

(** [str.isspace] on one character: the code points below U+0100 that
    Unicode classes as whitespace (TAB..CR, FS..US, SPACE, NEL, NBSP). *)
Definition isspace (c : ascii) : bool :=
  let n := N_of_ascii c in
  ((9 <=? n) && (n <=? 13) || (28 <=? n) && (n <=? 32)
   || (n =? 133) || (n =? 160))%N.

(** [s.lstrip()] *)
Fixpoint lstrip (s : string) : string :=
  match s with
  | EmptyString => EmptyString
  | String c s' => if isspace c then lstrip s' else s
  end.

(** [s.rstrip()] *)
Fixpoint rstrip (s : string) : string :=
  match s with
  | EmptyString => EmptyString
  | String c s' =>
      match rstrip s' with
      | EmptyString => if isspace c then EmptyString else String c EmptyString
      | r => String c r
      end
  end.

(** [s.strip()] *)
Definition strip (s : string) : string := rstrip (lstrip s).

(** Every character of [s] is whitespace. *)
Fixpoint all_space (s : string) : bool :=
  match s with
  | EmptyString => true
  | String c s' => isspace c && all_space s'
  end.

(** The exceptions that occur.  [CancelledError] derives from
    [BaseException] only; the others derive from [Exception]. *)
Inductive exn : Type :=
| AttributeError
| ValueError
| RuntimeError
| CancelledError.

(** [isinstance(e, Exception)]: what [except Exception] catches. *)
Definition is_Exception (e : exn) : bool :=
  match e with
  | CancelledError => false
  | _ => true
  end.

(** How a call ends. *)
Inductive outcome (A : Type) : Type :=
| Return (a : A)
| Raise (e : exn).
Arguments Return {A} a.
Arguments Raise {A} e.

End Py.

Export Py.

(** ** types.py: the events handed to the application's callbacks

    Dataclasses do not check their fields' types: every field holds
    whatever the message held. *)

Module Types.

Record SetupEventData : Type := {
  session_id : value;
  call_sid : value;
  account_sid : value;
  from_number : value;
  to_number : value;
  direction : value;
  call_status : value;
  call_type : value;
  caller_name : value;
  forwarded_from : value;
  parent_call_sid : value;
  custom_parameters : value
}.

Record InterruptEventData : Type := {
  utterance_until_interrupt : value;
  duration_until_interrupt_ms : value
}.

Record DTMFEventData : Type := { digit : value }.

Record ErrorEventData : Type := { description : value }.

(** A callback is an application function: awaited, it returns or raises.
    [None] is an unregistered callback. *)
Record ConversationRelayCallbacks : Type := {
  on_setup : option (SetupEventData -> outcome unit);
  on_interrupt : option (InterruptEventData -> outcome unit);
  on_dtmf : option (DTMFEventData -> outcome unit);
  on_error : option (ErrorEventData -> outcome unit)
}.

(** [ConversationRelayCallbacks()] *)
Definition no_callbacks : ConversationRelayCallbacks :=
  {| on_setup := None; on_interrupt := None; on_dtmf := None; on_error := None |}.

End Types.

Export Types.

(** ** The collaborators: pipeline frames, the socket, the trace *)

Module Env.

(** The pipeline frames the relays build or tell apart.  In pipecat
    [TranscriptionFrame] is a subclass of [TextFrame]; [OtherFrame] is a
    frame of any other class. *)
Inductive Frame : Type :=
| StartFrame
| EndFrame
| CancelFrame
| ErrorFrame (error : value)
| TextFrame (text : value)
| TranscriptionFrame (text user_id timestamp language : value)
| LLMFullResponseEndFrame
| OtherFrame (class_name : string).

Inductive FrameDirection : Type := DOWNSTREAM | UPSTREAM.

(** [starlette.websockets.WebSocketState] *)
Inductive WebSocketState : Type := CONNECTING | CONNECTED | DISCONNECTED | RESPONSE.

#[global] Instance WebSocketState_eq_dec : EqDecision WebSocketState.
Proof. solve_decision. Defined.

(** The socket as the relays see it: its [client_state], and whether an
    awaited [send_json(message)] or [close()] fails.  A failing socket call
    raises an exception of the transport, which is an [Exception]. *)
Record WebSocket : Type := {
  client_state : WebSocketState;
  send_json_fails : gmap string value -> bool;
  close_fails : bool
}.

Definition socket_call (fails : bool) : outcome unit :=
  if fails then Raise RuntimeError else Return tt.

(** [pipecat.transports.base_transport.TransportParams], as far as this
    package reads or writes it: the four media flags. *)
Record TransportParams : Type := {
  audio_in_enabled : bool;
  audio_out_enabled : bool;
  video_in_enabled : bool;
  video_out_enabled : bool
}.

(** A [TransportParams] object is mutable and shared: the relays hold a
    reference to it, the objects themselves live in a store. *)
Definition ref : Type := positive.

(** One call made by a relay on a collaborator. *)
Inductive call : Type :=
| push_frame (frame : Frame) (direction : FrameDirection)
| call_on_setup (event : SetupEventData)
| call_on_interrupt (event : InterruptEventData)
| call_on_dtmf (event : DTMFEventData)
| call_on_error (event : ErrorEventData)
| websocket_send_json (message : gmap string value)
| websocket_close
| create_task
| cancel_task
| super_start (frame : Frame)
| super_stop (frame : Frame)
| super_cancel (frame : Frame)
| super_process_frame (frame : Frame) (direction : FrameDirection).

End Env.

Export Env.

(** ** A method body: fields in, outcome, fields and trace out *)

Module Method.

Section Run.
Context {S : Type}.

Definition M (A : Type) : Type := S -> outcome A * S * list call.

Definition ret {A} (a : A) : M A := fun s => (Return a, s, []).

Definition bind {A B} (m : M A) (k : A -> M B) : M B :=
  fun s =>
    match m s with
    | (Return a, s1, t1) => let '(r, s2, t2) := k a s1 in (r, s2, t1 ++ t2)
    | (Raise e, s1, t1) => (Raise e, s1, t1)
    end.

(** [raise e] *)
Definition raise {A} (e : exn) : M A := fun s => (Raise e, s, []).

(** A call on a collaborator that returns. *)
Definition do (c : call) : M unit := fun s => (Return tt, s, [c]).

(** A call on a collaborator that ends as [r] says. *)
Definition await (c : call) (r : outcome unit) : M unit := fun s => (r, s, [c]).

Definition get : M S := fun s => (Return s, s, []).

Definition modify (f : S -> S) : M unit := fun s => (Return tt, f s, []).

(** [try: m except Exception: pass] *)
Definition try_except_Exception (m : M unit) : M unit :=
  fun s =>
    match m s with
    | (Raise e, s1, t1) =>
        if is_Exception e then (Return tt, s1, t1) else (Raise e, s1, t1)
    | r => r
    end.

Definition result {A} (r : outcome A * S * list call) : outcome A := r.1.1.
Definition fields {A} (r : outcome A * S * list call) : S := r.1.2.
Definition trace {A} (r : outcome A * S * list call) : list call := r.2.

End Run.

Arguments M : clear implicits.

End Method.

Export Method.

Notation "'let*' x := m 'in' k" := (bind m (fun x => k))
  (at level 10, x name, m at level 100, k at level 200, only parsing).
Notation "m >> k" := (bind m (fun _ => k))
  (at level 100, k at level 200, right associativity, only parsing).

(** ** input_transport.py: [ConversationRelayInputTransport] *)

Module Input.

(** The running [_receive_messages()] task, as [create_task] returns it. *)
Inductive Task : Type := receive_task.

(** The fields of the object; [_params] is the one the base class keeps. *)
Record InputTransport : Type := {
  _params : ref;
  _websocket : WebSocket;
  _callbacks : ConversationRelayCallbacks;
  _receive_task : option Task;
  _session_id : value;
  _call_sid : value;
  _initialized : bool
}.

(** [__init__(websocket, params, callbacks=None)] *)
Definition __init__ (websocket : WebSocket) (params : ref)
    (callbacks : option ConversationRelayCallbacks) : InputTransport :=
  {| _params := params;
     _websocket := websocket;
     _callbacks := default no_callbacks callbacks;
     _receive_task := None;
     _session_id := VNone;
     _call_sid := VNone;
     _initialized := false |}.

Definition set_receive_task (t : option Task) (self : InputTransport) : InputTransport :=
  {| _params := _params self;
     _websocket := _websocket self; _callbacks := _callbacks self;
     _receive_task := t;
     _session_id := _session_id self; _call_sid := _call_sid self;
     _initialized := _initialized self |}.

Definition set_initialized (b : bool) (self : InputTransport) : InputTransport :=
  {| _params := _params self;
     _websocket := _websocket self; _callbacks := _callbacks self;
     _receive_task := _receive_task self;
     _session_id := _session_id self; _call_sid := _call_sid self;
     _initialized := b |}.

Definition set_session (session call_ : value) (self : InputTransport) : InputTransport :=
  {| _params := _params self;
     _websocket := _websocket self; _callbacks := _callbacks self;
     _receive_task := _receive_task self;
     _session_id := session; _call_sid := call_;
     _initialized := _initialized self |}.

(** The properties [session_id] and [call_sid]. *)
Definition session_id (self : InputTransport) : value := _session_id self.
Definition call_sid (self : InputTransport) : value := _call_sid self.

(** [message.get(key)] and [message.get(key, fallback)] on a dict. *)
Definition dict_get (message : gmap string value) (key : string) : value :=
  default VNone (message !! key).
Definition dict_get_or (message : gmap string value) (key : string) (fallback : value) : value :=
  default fallback (message !! key).

(** [v == s] for a string literal [s]. *)
Definition eq_str (v : value) (s : string) : bool :=
  match v with
  | VStr s' => String.eqb s' s
  | _ => false
  end.

(** [v.strip()]: only a [str] has the method. *)
Definition value_strip (v : value) : M InputTransport string :=
  match v with
  | VStr s => ret (strip s)
  | _ => raise AttributeError
  end.

(** [await cb(event)] when [cb] is registered. *)
Definition invoke {E : Type} (cb : option (E -> outcome unit)) (mk : E -> call)
    (event : E) : M InputTransport unit :=
  match cb with
  | Some f => await (mk event) (f event)
  | None => ret tt
  end.

Definition start (frame : Frame) : M InputTransport unit :=
  do (super_start frame) >>
  let* self := get in
  if _initialized self then ret tt
  else
    modify (set_initialized true) >>
    let* self := get in
    match _receive_task self with
    | None => do create_task >> modify (set_receive_task (Some receive_task))
    | Some _ => ret tt
    end.

Definition _stop_tasks : M InputTransport unit :=
  let* self := get in
  match _receive_task self with
  | Some _ => do cancel_task >> modify (set_receive_task None)
  | None => ret tt
  end.

Definition _close_websocket : M InputTransport unit :=
  try_except_Exception (
    let* self := get in
    if decide (client_state (_websocket self) = CONNECTED)
    then await websocket_close (socket_call (close_fails (_websocket self)))
    else ret tt).

Definition stop (frame : Frame) : M InputTransport unit :=
  do (super_stop frame) >> _stop_tasks >> _close_websocket.

Definition cancel (frame : Frame) : M InputTransport unit :=
  do (super_cancel frame) >> _stop_tasks >> _close_websocket.

Definition _handle_setup (message : gmap string value) : M InputTransport unit :=
  modify (set_session (dict_get message "sessionId") (dict_get message "callSid")) >>
  let* self := get in
  invoke (on_setup (_callbacks self)) call_on_setup
    {| Types.session_id := dict_get_or message "sessionId" (VStr "");
       Types.call_sid := dict_get_or message "callSid" (VStr "");
       account_sid := dict_get message "accountSid";
       from_number := dict_get message "from";
       to_number := dict_get message "to";
       direction := dict_get message "direction";
       call_status := dict_get message "callStatus";
       call_type := dict_get message "callType";
       caller_name := dict_get message "callerName";
       forwarded_from := dict_get message "forwardedFrom";
       parent_call_sid := dict_get message "parentCallSid";
       custom_parameters := dict_get_or message "customParameters" (VDict ∅) |}.

(** [now] is [str(time.time())] as read while the frame is built. *)
Definition _handle_prompt (now : string) (message : gmap string value) : M InputTransport unit :=
  let last := dict_get_or message "last" (VBool false) in
  let voice_prompt := dict_get_or message "voicePrompt" (VStr "") in
  let lang := dict_get message "lang" in
  if negb (truthy last) then ret tt
  else
    let* stripped := value_strip voice_prompt in
    if negb (truthy (VStr stripped)) then ret tt
    else
      do (push_frame (TranscriptionFrame voice_prompt (VStr "") (VStr now) lang) DOWNSTREAM).

Definition _handle_interrupt (message : gmap string value) : M InputTransport unit :=
  let* self := get in
  invoke (on_interrupt (_callbacks self)) call_on_interrupt
    {| utterance_until_interrupt := dict_get message "utteranceUntilInterrupt";
       duration_until_interrupt_ms := dict_get message "durationUntilInterruptMs" |}.

Definition _handle_dtmf (message : gmap string value) : M InputTransport unit :=
  let* self := get in
  invoke (on_dtmf (_callbacks self)) call_on_dtmf
    {| digit := dict_get_or message "digit" (VStr "") |}.

Definition _handle_error (message : gmap string value) : M InputTransport unit :=
  let description := dict_get_or message "description" (VStr "Unknown error") in
  let* self := get in
  invoke (on_error (_callbacks self)) call_on_error {| Types.description := description |} >>
  do (push_frame (ErrorFrame description) DOWNSTREAM).

(** One text payload yielded by [self._websocket.iter_text()].
    [loads] is what [json.loads(text)] gives, [None] when it raises
    [JSONDecodeError]; [clock] is [str(time.time())] while the payload is
    handled. *)
Record payload : Type := {
  loads : option value;
  clock : string
}.

(** How [iter_text()] ends after its last payload: the iterator is exhausted
    (the peer disconnected), or the pending receive raises: a connection
    error, or [CancelledError] when the task is cancelled while it waits. *)
Inductive ending : Type :=
| Exhausted
| Raises (e : exn).

(** The body of the [async for], for one decoded message.  Only a [dict]
    has [get]. *)
Definition dispatch (now : string) (message : value) : M InputTransport unit :=
  match message with
  | VDict message =>
      let msg_type := dict_get message "type" in
      if eq_str msg_type "setup" then _handle_setup message
      else if eq_str msg_type "prompt" then _handle_prompt now message
      else if eq_str msg_type "interrupt" then _handle_interrupt message
      else if eq_str msg_type "dtmf" then _handle_dtmf message
      else if eq_str msg_type "error" then _handle_error message
      else ret tt
  | _ => raise AttributeError
  end.

(** The [async for] loop of [_receive_messages]. *)
Fixpoint receive_loop (texts : list payload) (fin : ending) : M InputTransport unit :=
  match texts with
  | [] =>
      match fin with
      | Exhausted => ret tt
      | Raises e => raise e
      end
  | text :: rest =>
      match loads text with
      | None => receive_loop rest fin
      | Some message => dispatch (clock text) message >> receive_loop rest fin
      end
  end.

Definition _receive_messages (texts : list payload) (fin : ending) : M InputTransport unit :=
  try_except_Exception (receive_loop texts fin) >>
  do (push_frame CancelFrame DOWNSTREAM).

End Input.

(** ** output_transport.py: [ConversationRelayOutputTransport] *)

Module Output.

Record OutputTransport : Type := {
  _params : ref;
  _websocket : WebSocket;
  _interruptible : bool
}.

(** [__init__(websocket, params, interruptible=True)] *)
Definition __init__ (websocket : WebSocket) (params : ref)
    (interruptible : bool) : OutputTransport :=
  {| _params := params; _websocket := websocket; _interruptible := interruptible |}.

Definition _send_json (message : gmap string value) : M OutputTransport unit :=
  try_except_Exception (
    let* self := get in
    if decide (client_state (_websocket self) = CONNECTED)
    then await (websocket_send_json message)
           (socket_call (send_json_fails (_websocket self) message))
    else ret tt).

Definition _send_text_token (token : value) : M OutputTransport unit :=
  let* self := get in
  let message : gmap string value :=
    <["interruptible" := VBool (_interruptible self)]>
    (<["last" := VBool false]>
    (<["token" := token]>
    {["type" := VStr "text"]})) in
  _send_json message.

Definition _send_last_token : M OutputTransport unit :=
  let message : gmap string value :=
    <["interruptible" := VBool false]>
    (<["last" := VBool true]>
    (<["token" := VStr ""]>
    {["type" := VStr "text"]})) in
  _send_json message.

(** [isinstance(frame, LLMFullResponseEndFrame)] *)
Definition is_LLMFullResponseEndFrame (frame : Frame) : bool :=
  match frame with
  | LLMFullResponseEndFrame => true
  | _ => false
  end.

(** [frame.text] when [isinstance(frame, TextFrame)]. *)
Definition as_TextFrame (frame : Frame) : option value :=
  match frame with
  | TextFrame text => Some text
  | TranscriptionFrame text _ _ _ => Some text
  | _ => None
  end.

Definition process_frame (frame : Frame) (direction : FrameDirection) : M OutputTransport unit :=
  if is_LLMFullResponseEndFrame frame then
    _send_last_token >> do (push_frame frame direction)
  else
    match as_TextFrame frame with
    | Some text => _send_text_token text >> do (push_frame frame direction)
    | None => do (super_process_frame frame direction)
    end.

Definition send_end_session (handoff_data : option string) : M OutputTransport unit :=
  let message : gmap string value := {["type" := VStr "end"]} in
  let message :=
    match handoff_data with
    | Some h => <["handoffData" := VStr h]> message
    | None => message
    end in
  _send_json message.

(** [send_play(source, loop=1, interruptible=None, preemptible=False)] *)
Definition send_play (source : string) (loop : Z) (interruptible : option bool)
    (preemptible : bool) : M OutputTransport unit :=
  let* self := get in
  let message : gmap string value :=
    <["preemptible" := VBool preemptible]>
    (<["loop" := VInt loop]>
    (<["source" := VStr source]>
    {["type" := VStr "play"]})) in
  let message :=
    match interruptible with
    | Some b => <["interruptible" := VBool b]> message
    | None => <["interruptible" := VBool (_interruptible self)]> message
    end in
  _send_json message.

Definition send_digits (digits : string) : M OutputTransport unit :=
  _send_json (<["digits" := VStr digits]> {["type" := VStr "sendDigits"]}).

Definition send_language (tts_language transcription_language : option string)
    : M OutputTransport unit :=
  match tts_language, transcription_language with
  | None, None => raise ValueError
  | _, _ =>
      let message : gmap string value := {["type" := VStr "language"]} in
      let message :=
        match tts_language with
        | Some l => <["ttsLanguage" := VStr l]> message
        | None => message
        end in
      let message :=
        match transcription_language with
        | Some l => <["transcriptionLanguage" := VStr l]> message
        | None => message
        end in
      _send_json message
  end.

(** The frames of a list, processed one after the other. *)
Fixpoint process_frames (frames : list Frame) (direction : FrameDirection)
    : M OutputTransport unit :=
  match frames with
  | [] => ret tt
  | frame :: rest => process_frame frame direction >> process_frames rest direction
  end.

(** The outbound operations, one per kind of message. *)
Inductive operation : Type :=
| op_text_token (token : value)
| op_last_token
| op_end_session (handoff_data : option string)
| op_play (source : string) (loop : Z) (interruptible : option bool) (preemptible : bool)
| op_send_digits (digits : string)
| op_language (tts_language transcription_language : option string).

Definition perform (op : operation) : M OutputTransport unit :=
  match op with
  | op_text_token token => _send_text_token token
  | op_last_token => _send_last_token
  | op_end_session h => send_end_session h
  | op_play s l i p => send_play s l i p
  | op_send_digits d => send_digits d
  | op_language t r => send_language t r
  end.

(** What [send_language] asks of its caller. *)
Definition precondition (op : operation) : bool :=
  match op with
  | op_language None None => false
  | _ => true
  end.

End Output.

(** ** transport.py: [ConversationRelayTransport] *)

Module Transport.

Record ConversationRelayTransport : Type := {
  _params : ref;
  _input : Input.InputTransport;
  _output : Output.OutputTransport
}.

(** [TransportParams(audio_in_enabled=False, audio_out_enabled=False,
    video_in_enabled=False, video_out_enabled=False)] *)
Definition disabled : TransportParams :=
  {| audio_in_enabled := false; audio_out_enabled := false;
     video_in_enabled := false; video_out_enabled := false |}.

(** The four assignments [self._params.<flag> = False]. *)
Definition disable_media (p : TransportParams) : TransportParams :=
  let p := {| audio_in_enabled := false; audio_out_enabled := audio_out_enabled p;
              video_in_enabled := video_in_enabled p; video_out_enabled := video_out_enabled p |} in
  let p := {| audio_in_enabled := audio_in_enabled p; audio_out_enabled := false;
              video_in_enabled := video_in_enabled p; video_out_enabled := video_out_enabled p |} in
  let p := {| audio_in_enabled := audio_in_enabled p; audio_out_enabled := audio_out_enabled p;
              video_in_enabled := false; video_out_enabled := video_out_enabled p |} in
  {| audio_in_enabled := audio_in_enabled p; audio_out_enabled := audio_out_enabled p;
     video_in_enabled := video_in_enabled p; video_out_enabled := false |}.

(** [__init__(websocket, params=None, callbacks=None, interruptible=True)]
    over the store of [TransportParams] objects: the object [params] refers
    to, or a new one, is changed in place and handed to both relays. *)
Definition __init__ (websocket : WebSocket) (params : option ref)
    (callbacks : option ConversationRelayCallbacks) (interruptible : bool)
    (store : gmap ref TransportParams)
    : ConversationRelayTransport * gmap ref TransportParams :=
  let '(p, store) :=
    match params with
    | Some r => (r, store)
    | None => let r := fresh (dom store) in (r, <[r := disabled]> store)
    end in
  let store := alter disable_media p store in
  ({| _params := p;
      _input := Input.__init__ websocket p callbacks;
      _output := Output.__init__ websocket p interruptible |}, store).

Definition input (self : ConversationRelayTransport) : Input.InputTransport := _input self.
Definition output (self : ConversationRelayTransport) : Output.OutputTransport := _output self.

End Transport.

(** ** twiml.py: [ConversationRelayTwiMLGenerator] *)

Module Twiml.

(** [str(b)] for a [bool]. *)
Definition str_bool (b : bool) : string := if b then "True" else "False".

(** [str.lower] on one character: the upper-case letters below U+0100 are
    A..Z and the Latin-1 capitals U+00C0..U+00DE without the sign U+00D7;
    each has its lower case 32 code points further. *)
Definition lower_char (c : ascii) : ascii :=
  let n := N_of_ascii c in
  if ((65 <=? n) && (n <=? 90) || (192 <=? n) && (n <=? 214)
      || (216 <=? n) && (n <=? 222))%N
  then ascii_of_N (n + 32)
  else c.

(** [s.lower()] *)
Fixpoint lower (s : string) : string :=
  match s with
  | EmptyString => EmptyString
  | String c s' => String (lower_char c) (lower s')
  end.

(** The arguments of [generate].  [custom_parameters] is the dict's items
    in insertion order. *)
Record arguments : Type := {
  websocket_url : string;
  tts_provider : string;
  voice : string;
  tts_language : option string;
  transcription_provider : string;
  speech_model : option string;
  transcription_language : string;
  hints : option string;
  welcome_greeting : option string;
  welcome_greeting_interruptible : option bool;
  interruptible : bool;
  interrupt_sensitivity : option string;
  preemptible : option bool;
  dtmf_detection : bool;
  report_input_during_agent_speech : option bool;
  elevenlabs_text_normalization : option string;
  custom_parameters : option (list (string * string))
}.

(** [generate(websocket_url)]: every other argument at its default. *)
Definition defaults (websocket_url : string) : arguments :=
  {| websocket_url := websocket_url;
     tts_provider := "google";
     voice := "Google.en-US-Neural2-A";
     tts_language := None;
     transcription_provider := "deepgram";
     speech_model := None;
     transcription_language := "en-US";
     hints := None;
     welcome_greeting := None;
     welcome_greeting_interruptible := None;
     interruptible := true;
     interrupt_sensitivity := None;
     preemptible := None;
     dtmf_detection := false;
     report_input_during_agent_speech := None;
     elevenlabs_text_normalization := None;
     custom_parameters := None |}.

(** [if x is not None: attrs[key] = x] *)
Definition set_if_given (key : string) (x : option string) (attrs : gmap string string)
    : gmap string string :=
  match x with
  | Some v => <[key := v]> attrs
  | None => attrs
  end.

(** The dict [attrs] as it stands when it is unpacked into the call of
    [connect.conversation_relay]. *)
Definition attrs (a : arguments) : gmap string string :=
  let attrs : gmap string string :=
    <["dtmf_detection" := lower (str_bool (dtmf_detection a))]>
    (<["interruptible" := lower (str_bool (interruptible a))]>
    (<["transcription_language" := transcription_language a]>
    (<["transcription_provider" := transcription_provider a]>
    (<["voice" := voice a]>
    (<["tts_provider" := tts_provider a]>
    {["url" := websocket_url a]}))))) in
  let attrs := set_if_given "tts_language" (tts_language a) attrs in
  let attrs := set_if_given "speech_model" (speech_model a) attrs in
  let attrs := set_if_given "hints" (hints a) attrs in
  let attrs := set_if_given "welcome_greeting" (welcome_greeting a) attrs in
  let attrs :=
    set_if_given "welcome_greeting_interruptible"
      ((fun b => lower (str_bool b)) <$> welcome_greeting_interruptible a) attrs in
  let attrs := set_if_given "interrupt_sensitivity" (interrupt_sensitivity a) attrs in
  let attrs :=
    set_if_given "preemptible" ((fun b => lower (str_bool b)) <$> preemptible a) attrs in
  let attrs :=
    set_if_given "report_input_during_agent_speech"
      ((fun b => lower (str_bool b)) <$> report_input_during_agent_speech a) attrs in
  set_if_given "elevenlabs_text_normalization" (elevenlabs_text_normalization a) attrs.

(** What the function asks of the [twilio] package: a [<Response>] holding
    one [<Connect>] holding one [<ConversationRelay>] made from the keyword
    arguments [kwargs], with one [<Parameter>] per pair of [parameters]. *)
Record ConversationRelay : Type := {
  kwargs : gmap string string;
  parameters : list (string * string)
}.

(** [if custom_parameters: for name, value in custom_parameters.items(): ...] *)
Definition parameter_calls (custom_parameters : option (list (string * string)))
    : list (string * string) :=
  match custom_parameters with
  | Some (item :: items) => item :: items
  | _ => []
  end.

Inductive generated : Type :=
| Twiml (text : string)
| ImportError (message : string).

(** [generate].  [twilio] is the package when it can be imported: how it
    writes the response out as text ([str(response)]). *)
Definition generate (twilio : option (ConversationRelay -> string)) (a : arguments)
    : generated :=
  match twilio with
  | None =>
      ImportError
        ("The 'twilio' package is required for TwiML generation. "
         ++ "Install it with: pip install pipecat-conversation-relay[twilio]")
  | Some str_response =>
      Twiml (str_response {| kwargs := attrs a;
                             parameters := parameter_calls (custom_parameters a) |})
  end.

End Twiml.

(** ** Reading a trace *)

Module Trace.

Definition is_transcription (c : call) : bool :=
  match c with
  | push_frame (TranscriptionFrame _ _ _ _) _ => true
  | _ => false
  end.

Definition is_cancel_frame (c : call) : bool :=
  match c with
  | push_frame CancelFrame _ => true
  | _ => false
  end.

Definition is_error_frame (c : call) : bool :=
  match c with
  | push_frame (ErrorFrame _) _ => true
  | _ => false
  end.

Definition is_on_error (c : call) : bool :=
  match c with
  | call_on_error _ => true
  | _ => false
  end.

Definition is_create_task (c : call) : bool :=
  match c with
  | create_task => true
  | _ => false
  end.

(** The messages handed to the socket's [send_json], in order. *)
Definition sent (t : list call) : list (gmap string value) :=
  omap (fun c => match c with websocket_send_json m => Some m | _ => None end) t.

(** How many calls of [t] satisfy [p]. *)
Definition count (p : call -> bool) (t : list call) : nat :=
  length (List.filter p t).

End Trace.

Export Trace.

(** ** The life of an input relay, as the pipeline drives it *)

Module Lifecycle.

Import Input.

(** What happens to the relay from outside: the pipeline calls one of its
    lifecycle methods, or the shared socket changes under it. *)
Inductive event : Type :=
| calls_start (frame : Frame)
| calls_stop (frame : Frame)
| calls_cancel (frame : Frame)
| socket_becomes (websocket : WebSocket).

Definition set_websocket (websocket : WebSocket) (self : InputTransport) : InputTransport :=
  {| _params := _params self;
     _websocket := websocket; _callbacks := _callbacks self;
     _receive_task := _receive_task self;
     _session_id := _session_id self; _call_sid := _call_sid self;
     _initialized := _initialized self |}.

Definition step (ev : event) : M InputTransport unit :=
  match ev with
  | calls_start frame => start frame
  | calls_stop frame => stop frame
  | calls_cancel frame => cancel frame
  | socket_becomes websocket => modify (set_websocket websocket)
  end.

(** The events one after the other; a method that raises does not keep
    the pipeline from calling the next. *)
Fixpoint run (evs : list event) (self : InputTransport) : InputTransport * list call :=
  match evs with
  | [] => (self, [])
  | ev :: rest =>
      let r := step ev self in
      let r' := run rest (fields r) in
      (r'.1, trace r ++ r'.2)
  end.

End Lifecycle.

(** ** The vocabulary of the properties *)

Module Words.

(** The utterance text of a prompt is a string that keeps a character once
    stripped. *)
Definition keeps_text (voice_prompt : value) : bool :=
  match voice_prompt with
  | VStr s => negb (String.eqb (strip s) "")
  | _ => false
  end.

(** The outbound [text] messages of the wire protocol. *)
Definition text_message (token : value) (interruptible : bool) : gmap string value :=
  <["interruptible" := VBool interruptible]>
  (<["last" := VBool false]>
  (<["token" := token]>
  {["type" := VStr "text"]})).

Definition last_message : gmap string value :=
  <["interruptible" := VBool false]>
  (<["last" := VBool true]>
  (<["token" := VStr ""]>
  {["type" := VStr "text"]})).

(** Sample collaborators. *)
Definition live_socket : WebSocket :=
  {| client_state := CONNECTED; send_json_fails := fun _ => false; close_fails := false |}.

Definition dead_socket : WebSocket :=
  {| client_state := DISCONNECTED; send_json_fails := fun _ => true; close_fails := true |}.

Definition listening (_ : ErrorEventData) : outcome unit := Return tt.

Definition failing (_ : ErrorEventData) : outcome unit := Raise RuntimeError.

(** A relay as the façade builds it, without callbacks. *)
Definition fresh_input : Input.InputTransport := Input.__init__ live_socket 1%positive None.

Definition fresh_output : Output.OutputTransport := Output.__init__ live_socket 1%positive true.

(** [{"type": kind, ...fields}] *)
Definition message_of (kind : string) (fields : list (string * value)) : value :=
  VDict (<["type" := VStr kind]> (list_to_map fields)).

Definition text_of (message : value) : Input.payload :=
  {| Input.loads := Some message; Input.clock := "1700000000.0" |}.

(** The [async for] of [_receive_messages] is left by an exception that
    [except Exception] does not catch: the task was cancelled. *)
Definition left_by_cancellation (texts : list Input.payload) (fin : Input.ending)
    (self : Input.InputTransport) : bool :=
  match result (Input.receive_loop texts fin self) with
  | Raise e => negb (is_Exception e)
  | Return _ => false
  end.

(** A final prompt whose text is [null], one that says "hi", and a payload
    that is not JSON. *)
Definition null_prompt : Input.payload :=
  text_of (message_of "prompt" [("voicePrompt", VNone); ("last", VBool true)]).

Definition hi_prompt : Input.payload :=
  text_of (message_of "prompt" [("voicePrompt", VStr "hi"); ("last", VBool true)]).

Definition not_json : Input.payload :=
  {| Input.loads := None; Input.clock := "1700000000.0" |}.

Definition setup_of (session call_ : string) : Input.payload :=
  text_of (message_of "setup" [("sessionId", VStr session); ("callSid", VStr call_)]).

Definition error_message : gmap string value :=
  <["description" := VStr "Something went wrong"]> {["type" := VStr "error"]}.

(** A relay whose only callback is [on_error]. *)
Definition listening_input : Input.InputTransport :=
  Input.__init__ live_socket 1%positive
    (Some {| on_setup := None; on_interrupt := None; on_dtmf := None;
             on_error := Some listening |}).

(** A relay whose [on_error] callback raises. *)
Definition failing_input : Input.InputTransport :=
  Input.__init__ live_socket 1%positive
    (Some {| on_setup := None; on_interrupt := None; on_dtmf := None;
             on_error := Some failing |}).

(** An outbound relay on a socket that is closed and whose sends fail. *)
Definition dead_output : Output.OutputTransport := Output.__init__ dead_socket 1%positive true.

(** What reaches the socket when [message] is sent through [self]. *)
Definition on_the_wire (self : Output.OutputTransport) (message : gmap string value)
    : list call :=
  if decide (client_state (Output._websocket self) = CONNECTED)
  then [websocket_send_json message]
  else [].

(** A store with one [TransportParams] object, every medium enabled. *)
Definition enabled : TransportParams :=
  {| audio_in_enabled := true; audio_out_enabled := true;
     video_in_enabled := true; video_out_enabled := true |}.

Definition one_enabled : gmap ref TransportParams := {[ 5%positive := enabled ]}.

(** More readers of a trace. *)
Definition is_cancel_task (c : call) : bool :=
  match c with
  | cancel_task => true
  | _ => false
  end.

Definition is_push_frame (c : call) : bool :=
  match c with
  | push_frame _ _ => true
  | _ => false
  end.

Definition is_send_json (c : call) : bool :=
  match c with
  | websocket_send_json _ => true
  | _ => false
  end.

(** The message types [_receive_messages] has a handler for. *)
Definition known_type (msg_type : value) : bool :=
  Input.eq_str msg_type "setup" || Input.eq_str msg_type "prompt"
  || Input.eq_str msg_type "interrupt" || Input.eq_str msg_type "dtmf"
  || Input.eq_str msg_type "error".

(** A payload the loop only logs: text that is not JSON, or an object
    whose [type] has no handler. *)
Definition only_logged (text : Input.payload) : bool :=
  match Input.loads text with
  | None => true
  | Some (VDict message) => negb (known_type (Input.dict_get message "type"))
  | Some _ => false
  end.

(** A prompt as the peer sends it: the text heard so far, whether it is
    final, and the language when it names one. *)
Record utterance : Type := {
  heard : string;
  final : bool;
  spoken_in : option string;
  received_at : string
}.

Definition prompt_of (u : utterance) : Input.payload :=
  let message : gmap string value :=
    <["last" := VBool (final u)]>
    (<["voicePrompt" := VStr (heard u)]>
    {["type" := VStr "prompt"]}) in
  let message :=
    match spoken_in u with
    | Some l => <["lang" := VStr l]> message
    | None => message
    end in
  {| Input.loads := Some (VDict message); Input.clock := received_at u |}.

Definition transcribed (u : utterance) : bool :=
  final u && negb (String.eqb (strip (heard u)) "").

Definition transcription_of (u : utterance) : call :=
  push_frame
    (TranscriptionFrame (VStr (heard u)) (VStr "") (VStr (received_at u))
       (match spoken_in u with Some l => VStr l | None => VNone end))
    DOWNSTREAM.

(** Two relays that differ in their session identity at most. *)
Definition same_but_identity (s s' : Input.InputTransport) : Prop :=
  Input._params s' = Input._params s
  /\ Input._websocket s' = Input._websocket s
  /\ Input._callbacks s' = Input._callbacks s
  /\ Input._receive_task s' = Input._receive_task s
  /\ Input._initialized s' = Input._initialized s.

(** What a frame puts on the wire, and how it leaves [process_frame]. *)
Definition wire_message (interruptible : bool) (frame : Frame) : option (gmap string value) :=
  if Output.is_LLMFullResponseEndFrame frame then Some last_message
  else (fun text => text_message text interruptible) <$> Output.as_TextFrame frame.

Definition passed_on (direction : FrameDirection) (frame : Frame) : call :=
  if Output.is_LLMFullResponseEndFrame frame then push_frame frame direction
  else match Output.as_TextFrame frame with
       | Some _ => push_frame frame direction
       | None => super_process_frame frame direction
       end.

(** The [type] of the message of each operation, and its keys. *)
Definition kind (op : Output.operation) : string :=
  match op with
  | Output.op_text_token _ | Output.op_last_token => "text"
  | Output.op_end_session _ => "end"
  | Output.op_play _ _ _ _ => "play"
  | Output.op_send_digits _ => "sendDigits"
  | Output.op_language _ _ => "language"
  end.

Definition key_if {A} (x : option A) (key : string) : gset string :=
  match x with
  | Some _ => {[ key ]}
  | None => ∅
  end.

Definition keys (op : Output.operation) : gset string :=
  match op with
  | Output.op_text_token _ | Output.op_last_token =>
      {[ "type"; "token"; "last"; "interruptible" ]}
  | Output.op_end_session h => {[ "type" ]} ∪ key_if h "handoffData"
  | Output.op_play _ _ _ _ =>
      {[ "type"; "source"; "loop"; "preemptible"; "interruptible" ]}
  | Output.op_send_digits _ => {[ "type"; "digits" ]}
  | Output.op_language t r =>
      {[ "type" ]} ∪ key_if t "ttsLanguage" ∪ key_if r "transcriptionLanguage"
  end.

(** The attributes [generate] always sets, and those it sets on request. *)
Definition always_set : gset string :=
  {[ "url"; "tts_provider"; "voice"; "transcription_provider";
     "transcription_language"; "interruptible"; "dtmf_detection" ]}.

Definition set_on_request (a : Twiml.arguments) : gset string :=
  key_if (Twiml.tts_language a) "tts_language"
  ∪ key_if (Twiml.speech_model a) "speech_model"
  ∪ key_if (Twiml.hints a) "hints"
  ∪ key_if (Twiml.welcome_greeting a) "welcome_greeting"
  ∪ key_if (Twiml.welcome_greeting_interruptible a) "welcome_greeting_interruptible"
  ∪ key_if (Twiml.interrupt_sensitivity a) "interrupt_sensitivity"
  ∪ key_if (Twiml.preemptible a) "preemptible"
  ∪ key_if (Twiml.report_input_during_agent_speech a) "report_input_during_agent_speech"
  ∪ key_if (Twiml.elevenlabs_text_normalization a) "elevenlabs_text_normalization".

(** What the fields of a relay say of the receive tasks created and
    cancelled so far. *)
Definition tasks_accounted (s : Input.InputTransport) (created cancelled : nat) : Prop :=
  match Input._initialized s, Input._receive_task s with
  | false, None => created = 0 /\ cancelled = 0
  | false, Some _ => False
  | true, Some _ => created = 1 /\ cancelled = 0
  | true, None => created = 1 /\ cancelled = 1
  end.

(** [true] and [false] as an attribute spells them. *)
Definition spelled (b : bool) : string := if b then "true" else "false".

End Words.

Export Words.

(** * Properties *)

(** ** Sequencing *)

Section Sequencing.
Context {Self A B : Type}.
Implicit Types (m : M Self A) (k : A -> M Self B).

Lemma bind_trace m k s :
  trace (bind m k s) =
    trace (m s) ++ match result (m s) with
                   | Return a => trace (k a (fields (m s)))
                   | Raise _ => []
                   end.
Proof.
  unfold bind, trace, result, fields.
  destruct (m s) as [[[a|e] s1] t1]; simpl; [|by rewrite app_nil_r].
  by destruct (k a s1) as [[r s2] t2].
Qed.

Lemma bind_result m k s :
  result (bind m k s) =
    match result (m s) with
    | Return a => result (k a (fields (m s)))
    | Raise e => Raise e
    end.
Proof.
  unfold bind, trace, result, fields.
  destruct (m s) as [[[a|e] s1] t1]; simpl; [|done].
  by destruct (k a s1) as [[r s2] t2].
Qed.

Lemma bind_fields m k s :
  fields (bind m k s) =
    match result (m s) with
    | Return a => fields (k a (fields (m s)))
    | Raise e => fields (m s)
    end.
Proof.
  unfold bind, trace, result, fields.
  destruct (m s) as [[[a|e] s1] t1]; simpl; [|done].
  by destruct (k a s1) as [[r s2] t2].
Qed.

End Sequencing.

(** ** [str.strip] *)

Section Strip.

Lemma lstrip_all_space s : all_space s = true -> lstrip s = "".
Proof.
  induction s as [|c s IH]; simpl; [done|].
  intros [Hc Hs]%andb_true_iff. rewrite Hc. auto.
Qed.

Lemma rstrip_all_space s : all_space s = true -> rstrip s = "".
Proof.
  induction s as [|c s IH]; simpl; [done|].
  intros [Hc Hs]%andb_true_iff. rewrite (IH Hs), Hc. done.
Qed.

Lemma rstrip_empty s : rstrip s = "" -> all_space s = true.
Proof.
  induction s as [|c s IH]; simpl; [done|].
  destruct (rstrip s) eqn:Hr; [|done].
  destruct (isspace c); [|done].
  intros _. by rewrite IH.
Qed.

Lemma all_space_lstrip s : all_space (lstrip s) = true -> all_space s = true.
Proof.
  induction s as [|c s IH]; simpl; [done|].
  destruct (isspace c) eqn:Hc; simpl; [auto|].
  by rewrite Hc.
Qed.

(** Stripping leaves nothing exactly when there is nothing but whitespace. *)
Lemma strip_empty_iff s : strip s = "" <-> all_space s = true.
Proof.
  unfold strip. split.
  - intros H. by apply all_space_lstrip, rstrip_empty.
  - intros H. by rewrite (lstrip_all_space s H).
Qed.

Example strip_blank : strip "   " = "".
Proof. reflexivity. Qed.

Example strip_padded : strip "  hi there " = "hi there".
Proof. reflexivity. Qed.

End Strip.

(** ** The inbound relay *)

Module InputProperties.

Import Input.

Lemma keeps_text_iff v :
  keeps_text v = true <-> exists s, v = VStr s /\ strip s <> "".
Proof.
  split.
  - destruct v; simpl; try done.
    intros H%negb_true_iff%String.eqb_neq. eauto.
  - intros (s & -> & H). simpl. by apply negb_true_iff, String.eqb_neq.
Qed.

(** What [_handle_prompt] does, case by case. *)
Lemma handle_prompt_run now message self :
  _handle_prompt now message self =
    let last := dict_get_or message "last" (VBool false) in
    let voice_prompt := dict_get_or message "voicePrompt" (VStr "") in
    if negb (truthy last) then (Return tt, self, [])
    else match voice_prompt with
         | VStr s =>
             if keeps_text voice_prompt
             then (Return tt, self,
                   [push_frame (TranscriptionFrame voice_prompt (VStr "") (VStr now)
                                  (dict_get message "lang")) DOWNSTREAM])
             else (Return tt, self, [])
         | _ => (Raise AttributeError, self, [])
         end.
Proof.
  unfold _handle_prompt. cbv zeta.
  destruct (negb (truthy _)); [done|].
  destruct (dict_get_or message "voicePrompt" _) as [| | | |s| |]; try done.
  unfold bind, value_strip, ret. simpl.
  destruct (negb (strip s =? "")%string); done.
Qed.

(** C1. [_handle_prompt] pushes a transcription frame exactly when the
    message's [last] flag is true (as [if not last] tests it, a missing flag
    being [False]) and its [voicePrompt] is text that is not empty once
    stripped of whitespace; then it pushes exactly one, and the
    frame carries the text as received, unstripped.  A prompt that is not
    final, a final one whose text strips to nothing, and a final one whose
    text is [None] push nothing at all. *)
Theorem handle_prompt_transcription_iff :
  forall (now : string) (message : gmap string value) (self : InputTransport),
    let last := dict_get_or message "last" (VBool false) in
    let voice_prompt := dict_get_or message "voicePrompt" (VStr "") in
    let r := _handle_prompt now message self in
    ((exists c, c ∈ trace r /\ is_transcription c = true) <->
       (truthy last = true /\ exists s, voice_prompt = VStr s /\ strip s <> ""))
    /\ trace r =
         (if truthy last && keeps_text voice_prompt
          then [push_frame (TranscriptionFrame voice_prompt (VStr "") (VStr now)
                              (dict_get message "lang")) DOWNSTREAM]
          else [])
    /\ (if truthy last then True else trace r = [])
    /\ (match voice_prompt with
        | VNone => trace r = []
        | VStr s => if String.eqb (strip s) "" then trace r = [] else True
        | _ => True
        end).
Proof.
  intros now message self last voice_prompt r.
  assert (Ht : trace r =
     (if truthy last && keeps_text voice_prompt
      then [push_frame (TranscriptionFrame voice_prompt (VStr "") (VStr now)
                          (dict_get message "lang")) DOWNSTREAM]
      else [])).
  { subst r. rewrite handle_prompt_run. cbv zeta. fold last voice_prompt.
    destruct (truthy last); simpl; [|done].
    destruct voice_prompt; try done.
    by destruct (keeps_text _). }
  split; [|split; [done|split]].
  - rewrite Ht. rewrite <- keeps_text_iff. split.
    + intros (c & Hc & _).
      destruct (truthy last), (keeps_text voice_prompt); simpl in Hc;
        try done; by apply elem_of_nil in Hc.
    + intros [-> ->]. simpl. eexists. split; [apply list_elem_of_here|done].
  - rewrite Ht. by destruct (truthy last).
  - rewrite Ht. destruct voice_prompt as [| | | |s| |]; try done.
    + by rewrite andb_false_r.
    + simpl. destruct (strip s =? "")%string; [|done]. by rewrite andb_false_r.
Qed.

Example prompt_blank_final :
  trace (_handle_prompt "0.0"
           (<["voicePrompt" := VStr "  "]> {["last" := VBool true]}) fresh_input) = [].
Proof. vm_compute. reflexivity. Qed.

(** *** Error messages *)

(** What [_handle_error] does, case by case: the frame is pushed after the
    callback has returned. *)
Lemma handle_error_run message self :
  _handle_error message self =
    let description := dict_get_or message "description" (VStr "Unknown error") in
    let event := {| Types.description := description |} in
    match on_error (_callbacks self) with
    | None => (Return tt, self, [push_frame (ErrorFrame description) DOWNSTREAM])
    | Some f =>
        match f event with
        | Return _ =>
            (Return tt, self,
             [call_on_error event; push_frame (ErrorFrame description) DOWNSTREAM])
        | Raise e => (Raise e, self, [call_on_error event])
        end
    end.
Proof.
  unfold _handle_error, bind, get, invoke, await, ret, do. cbv zeta. simpl.
  destruct (on_error (_callbacks self)) as [f|]; [|done].
  simpl. by destruct (f _) as [[]|e].
Qed.

(** C5, as amended.  For every error message: [on_error] is called when and
    only when it is registered, once, with the message's description, and
    before anything is pushed.  When no callback is registered, or the
    callback returns, one error frame with that same description is pushed
    downstream and the handler returns.  When the callback raises, the
    handler raises the same exception and no error frame is pushed: the
    frame is pushed exactly when the handler returns. *)
Theorem handle_error_callback_then_frame :
  forall (message : gmap string value) (self : InputTransport),
    let description := dict_get_or message "description" (VStr "Unknown error") in
    let event := {| Types.description := description |} in
    let r := _handle_error message self in
    List.filter is_on_error (trace r) =
      match on_error (_callbacks self) with
      | Some _ => [call_on_error event]
      | None => []
      end
    /\ match on_error (_callbacks self) with
       | None =>
           trace r = [push_frame (ErrorFrame description) DOWNSTREAM]
           /\ result r = Return tt
       | Some f =>
           match f event with
           | Return _ =>
               trace r = [call_on_error event;
                          push_frame (ErrorFrame description) DOWNSTREAM]
               /\ result r = Return tt
           | Raise e =>
               trace r = [call_on_error event]
               /\ result r = Raise e
           end
       end
    /\ List.filter is_error_frame (trace r) =
         match result r with
         | Return _ => [push_frame (ErrorFrame description) DOWNSTREAM]
         | Raise _ => []
         end
    /\ count is_error_frame (trace r) = match result r with Return _ => 1 | Raise _ => 0 end.
Proof.
  intros message self description event r. subst r.
  rewrite handle_error_run. cbv zeta. fold description. fold event.
  destruct (on_error (_callbacks self)) as [f|] eqn:Hf; [|done].
  by destruct (f event) as [[]|e].
Qed.

(** A callback that raises keeps the frame from being pushed. *)
Lemma handle_error_callback_raises message self f e :
  on_error (_callbacks self) = Some f ->
  f {| Types.description := dict_get_or message "description" (VStr "Unknown error") |}
    = Raise e ->
  _handle_error message self =
    (Raise e, self,
     [call_on_error
        {| Types.description := dict_get_or message "description" (VStr "Unknown error") |}]).
Proof. intros Hf He. rewrite handle_error_run. cbv zeta. by rewrite Hf, He. Qed.

(** A callback that returns lets it through. *)
Lemma handle_error_callback_returns message self f :
  on_error (_callbacks self) = Some f ->
  f {| Types.description := dict_get_or message "description" (VStr "Unknown error") |}
    = Return tt ->
  _handle_error message self =
    (Return tt, self,
     [call_on_error
        {| Types.description := dict_get_or message "description" (VStr "Unknown error") |};
      push_frame
        (ErrorFrame (dict_get_or message "description" (VStr "Unknown error"))) DOWNSTREAM]).
Proof. intros Hf He. rewrite handle_error_run. cbv zeta. by rewrite Hf, He. Qed.

Example listening_callback_and_frame :
  _handle_error error_message listening_input
    = (Return tt, listening_input,
       [call_on_error {| Types.description := VStr "Something went wrong" |};
        push_frame (ErrorFrame (VStr "Something went wrong")) DOWNSTREAM]).
Proof. by apply (handle_error_callback_returns error_message listening_input listening). Qed.

(** C5, the claim as it stands fails: with a registered callback that
    raises, the error message reaches the callback and no error frame is
    pushed. *)
Lemma raising_callback_pushes_no_error_frame :
  is_Some (on_error (_callbacks failing_input))
  /\ _handle_error error_message failing_input
     = (Raise RuntimeError, failing_input,
        [call_on_error {| Types.description := VStr "Something went wrong" |}])
  /\ count is_error_frame (trace (_handle_error error_message failing_input)) = 0
  /\ List.filter is_error_frame (trace (_handle_error error_message failing_input))
     <> [push_frame (ErrorFrame (VStr "Something went wrong")) DOWNSTREAM].
Proof.
  assert (H : _handle_error error_message failing_input
     = (Raise RuntimeError, failing_input,
        [call_on_error {| Types.description := VStr "Something went wrong" |}])).
  { by apply (handle_error_callback_raises error_message failing_input failing
                RuntimeError). }
  split; [by eexists|]. split; [exact H|]. rewrite H. by split.
Qed.

(** *** Session identity *)

(** C6, as amended.  Both fields are [None] on a new relay; every setup
    message sets them to its [sessionId] and [callSid] ([None] where it has
    none), whatever they held; the other handlers leave them alone. *)
Theorem setup_overwrites_identity :
  (forall websocket params callbacks,
      session_id (__init__ websocket params callbacks) = VNone
      /\ call_sid (__init__ websocket params callbacks) = VNone)
  /\ (forall message self,
        session_id (fields (_handle_setup message self)) = dict_get message "sessionId"
        /\ call_sid (fields (_handle_setup message self)) = dict_get message "callSid")
  /\ (forall now message self,
        fields (_handle_prompt now message self) = self
        /\ fields (_handle_interrupt message self) = self
        /\ fields (_handle_dtmf message self) = self
        /\ fields (_handle_error message self) = self).
Proof.
  split; [done|split].
  - intros message self.
    unfold _handle_setup, bind, modify, get, invoke, await, ret. simpl.
    by destruct (on_setup (_callbacks self)) as [f|].
  - intros now message self. repeat split.
    + rewrite handle_prompt_run. cbv zeta.
      destruct (negb _); [done|].
      destruct (dict_get_or message "voicePrompt" _); try done.
      by destruct (keeps_text _).
    + unfold _handle_interrupt, bind, get, invoke, await, ret. simpl.
      destruct (on_interrupt _) as [f|]; simpl; [|done].
      match goal with |- context [f ?ev] => by destruct (f ev) as [[]|e] end.
    + unfold _handle_dtmf, bind, get, invoke, await, ret. simpl.
      destruct (on_dtmf _) as [f|]; simpl; [|done].
      match goal with |- context [f ?ev] => by destruct (f ev) as [[]|e] end.
    + rewrite handle_error_run. cbv zeta.
      destruct (on_error _) as [f|]; [|done]. by destruct (f _) as [[]|e].
Qed.

(** *** The receive loop *)

(** A payload that is not JSON is skipped. *)
Lemma receive_loop_skips_non_json text rest fin self :
  loads text = None ->
  receive_loop (text :: rest) fin self = receive_loop rest fin self.
Proof. intros H. simpl. by rewrite H. Qed.

(** The handlers push no cancel frame. *)
Lemma dispatch_no_cancel now message self :
  List.filter is_cancel_frame (trace (dispatch now message self)) = [].
Proof.
  destruct message as [| | | | | |d]; try done. simpl.
  repeat case_match; try done.
  - unfold _handle_setup, bind, modify, get, invoke, await, ret. simpl.
    by destruct (on_setup _).
  - rewrite handle_prompt_run. cbv zeta. repeat case_match; done.
  - unfold _handle_interrupt, bind, get, invoke, await, ret. simpl.
    by destruct (on_interrupt _).
  - unfold _handle_dtmf, bind, get, invoke, await, ret. simpl.
    by destruct (on_dtmf _).
  - rewrite handle_error_run. cbv zeta. repeat case_match; done.
Qed.

Lemma receive_loop_no_cancel texts fin self :
  List.filter is_cancel_frame (trace (receive_loop texts fin self)) = [].
Proof.
  revert self. induction texts as [|text rest IH]; intros self; simpl.
  - by destruct fin.
  - destruct (loads text) as [message|]; [|done].
    rewrite bind_trace, List.filter_app, dispatch_no_cancel. simpl.
    by destruct (result _).
Qed.

(** An exception raised while a message is handled ends the loop: the
    payloads after it are not looked at. *)
Lemma dispatch_raise_ends_loop text message rest fin self e :
  loads text = Some message ->
  result (dispatch (clock text) message self) = Raise e ->
  receive_loop (text :: rest) fin self = dispatch (clock text) message self.
Proof.
  intros Hl He. simpl. rewrite Hl. unfold bind, result in *.
  destruct (dispatch (clock text) message self) as [[[[]|e'] s1] t1]; simpl in *; done.
Qed.

(** Without callbacks, handling a message returns or raises
    [AttributeError]; the relay still has no callbacks afterwards. *)
Lemma dispatch_no_callbacks now message self :
  _callbacks self = no_callbacks ->
  (result (dispatch now message self) = Return tt
   \/ result (dispatch now message self) = Raise AttributeError)
  /\ _callbacks (fields (dispatch now message self)) = no_callbacks.
Proof.
  intros Hcb. destruct message as [| | | | | |d]; simpl; try (split; [by right|done]).
  repeat case_match; try (split; [by left|done]).
  - unfold _handle_setup, bind, modify, get, invoke, await, ret. simpl.
    rewrite Hcb. simpl. split; [by left|done].
  - rewrite handle_prompt_run. cbv zeta.
    repeat case_match; simpl; (split; [by (left + right)|done]).
  - unfold _handle_interrupt, bind, get, invoke, await, ret. simpl.
    rewrite Hcb. simpl. split; [by left|done].
  - unfold _handle_dtmf, bind, get, invoke, await, ret. simpl.
    rewrite Hcb. simpl. split; [by left|done].
  - rewrite handle_error_run. cbv zeta. rewrite Hcb. simpl. split; [by left|done].
Qed.

Lemma receive_loop_no_callbacks texts fin self :
  _callbacks self = no_callbacks ->
  match result (receive_loop texts fin self) with
  | Raise e => e = AttributeError \/ fin = Raises e
  | Return _ => True
  end.
Proof.
  revert self. induction texts as [|text rest IH]; intros self Hcb; simpl.
  - destruct fin; simpl; auto.
  - destruct (loads text) as [message|]; [|by apply IH].
    rewrite bind_result.
    destruct (dispatch_no_callbacks (clock text) message self Hcb) as [[Hr|Hr] Hcb'];
      rewrite Hr; [by apply IH|by left].
Qed.

(** However many messages were received, a relay without callbacks is not
    left by cancellation when the socket's iterator is exhausted or fails
    with an [Exception]. *)
Lemma not_cancelled_without_callbacks texts fin self :
  _callbacks self = no_callbacks ->
  match fin with
  | Exhausted => True
  | Raises e => is_Exception e = true
  end ->
  left_by_cancellation texts fin self = false.
Proof.
  intros Hcb Hfin. unfold left_by_cancellation.
  pose proof (receive_loop_no_callbacks texts fin self Hcb) as H.
  destruct (result (receive_loop texts fin self)) as [[]|e]; [done|].
  destruct H as [->| ->]; [done|]. simpl in Hfin. by rewrite Hfin.
Qed.

(** C3, as amended.  When the receive loop ends because the socket's
    iterator is exhausted, or by an [Exception] (raised by the socket or
    while a message is handled), [_receive_messages] pushes exactly one
    cancel frame, as its last call, and returns; with no message received
    too.  When the task is cancelled, [CancelledError] passes through
    [except Exception] and no cancel frame is pushed.  A relay without
    callbacks is in the first case whenever the iterator is exhausted or
    fails with a [RuntimeError], whatever it received before. *)
Theorem receive_messages_cancel_frame :
  forall (texts : list payload) (fin : ending) (self : InputTransport),
    let r := _receive_messages texts fin self in
    count is_cancel_frame (trace r) = (if left_by_cancellation texts fin self then 0 else 1)
    /\ (if left_by_cancellation texts fin self
        then exists e, result r = Raise e /\ is_Exception e = false
        else result r = Return tt
             /\ last (trace r) = Some (push_frame CancelFrame DOWNSTREAM))
    /\ left_by_cancellation [] Exhausted self = false
    /\ left_by_cancellation [] (Raises RuntimeError) self = false
    /\ left_by_cancellation [] (Raises CancelledError) self = true
    /\ (forall websocket params,
          left_by_cancellation texts Exhausted (__init__ websocket params None) = false
          /\ left_by_cancellation texts (Raises RuntimeError)
               (__init__ websocket params None) = false).
Proof.
  intros texts fin self r.
  split; [|split; [|split; [done|split; [done|split; [done|]]]]];
    [| |by split; apply not_cancelled_without_callbacks]; subst r;
    unfold _receive_messages, left_by_cancellation, count;
    pose proof (receive_loop_no_cancel texts fin self) as Hno;
    unfold bind, try_except_Exception, do, trace, result in *;
    destruct (receive_loop texts fin self) as [[[[]|e] s1] t1]; simpl in *.
  - by rewrite List.filter_app, Hno.
  - destruct (is_Exception e); simpl; [|by rewrite Hno].
    by rewrite List.filter_app, Hno.
  - by rewrite last_snoc.
  - destruct (is_Exception e) eqn:He; simpl; [by rewrite last_snoc|eauto].
Qed.

(** C4.  A final prompt whose text is [null] makes [strip] raise; nothing
    catches that inside the loop body, so the loop is left, the cancel
    frame is pushed, and the prompt after it is never handled.  After a
    payload that is not JSON the same prompt is handled. *)
Theorem null_prompt_ends_receive_loop :
  _receive_messages [null_prompt; hi_prompt] Exhausted fresh_input
    = (Return tt, fresh_input, [push_frame CancelFrame DOWNSTREAM])
  /\ _receive_messages [not_json; hi_prompt] Exhausted fresh_input
    = (Return tt, fresh_input,
       [push_frame (TranscriptionFrame (VStr "hi") (VStr "") (VStr "1700000000.0") VNone)
          DOWNSTREAM;
        push_frame CancelFrame DOWNSTREAM]).
Proof. split; vm_compute; reflexivity. Qed.

(** C3, the claim as it stands fails: cancelled while it waits for the
    first message, the loop pushes no cancel frame. *)
Lemma cancelled_receive_pushes_no_cancel_frame :
  _receive_messages [] (Raises CancelledError) fresh_input
    = (Raise CancelledError, fresh_input, [])
  /\ count is_cancel_frame
       (trace (_receive_messages [] (Raises CancelledError) fresh_input)) <> 1.
Proof. split; [reflexivity|]. vm_compute. discriminate. Qed.

(** C6, the claim as it stands fails: a second setup message replaces what
    the first one set. *)
Lemma second_setup_changes_identity :
  session_id (fields (_receive_messages [setup_of "VX1" "CA1"] Exhausted fresh_input))
    = VStr "VX1"
  /\ session_id (fields (_receive_messages [setup_of "VX1" "CA1"; setup_of "VX2" "CA2"]
                           Exhausted fresh_input))
    = VStr "VX2"
  /\ session_id (fields (_receive_messages [setup_of "VX1" "CA1"; setup_of "VX2" "CA2"]
                           Exhausted fresh_input))
     <> session_id (fields (_receive_messages [setup_of "VX1" "CA1"] Exhausted fresh_input))
  /\ call_sid (fields (_receive_messages [setup_of "VX1" "CA1"; setup_of "VX2" "CA2"]
                         Exhausted fresh_input))
     <> call_sid (fields (_receive_messages [setup_of "VX1" "CA1"] Exhausted fresh_input)).
Proof. repeat split; vm_compute; (reflexivity || discriminate). Qed.

(** *** The initialization latch *)

Import Lifecycle.

(** Once the latch is set, no lifecycle call or change of the socket clears
    it, and none creates a task. *)
Lemma step_keeps_latch ev self :
  _initialized self = true ->
  _initialized (fields (step ev self)) = true
  /\ List.filter is_create_task (trace (step ev self)) = [].
Proof.
  intros Hinit. destruct ev as [frame|frame|frame|websocket]; simpl.
  - unfold start, bind, do, get. simpl. by rewrite Hinit.
  - unfold stop, _stop_tasks, _close_websocket, try_except_Exception,
      bind, do, get, modify, await, ret, socket_call. simpl.
    destruct (_receive_task self); simpl; case_decide; simpl;
      try destruct (close_fails _); done.
  - unfold cancel, _stop_tasks, _close_websocket, try_except_Exception,
      bind, do, get, modify, await, ret, socket_call. simpl.
    destruct (_receive_task self); simpl; case_decide; simpl;
      try destruct (close_fails _); done.
  - done.
Qed.

Lemma run_keeps_latch evs self :
  _initialized self = true ->
  _initialized (run evs self).1 = true
  /\ List.filter is_create_task (run evs self).2 = [].
Proof.
  revert self. induction evs as [|ev rest IH]; intros self Hinit; [done|].
  simpl. destruct (step_keeps_latch ev self Hinit) as [Hstep Hnone].
  destruct (IH _ Hstep) as [Hrest Hnone'].
  by rewrite List.filter_app, Hnone, Hnone'.
Qed.

Lemma start_sets_latch frame self : _initialized (fields (start frame self)) = true.
Proof.
  unfold start, bind, do, get, modify, ret. simpl.
  destruct (_initialized self) eqn:Hinit; simpl; [done|].
  by destruct (_receive_task self).
Qed.

Lemma start_when_initialized frame self :
  _initialized self = true -> fields (start frame self) = self.
Proof. intros Hinit. unfold start, bind, do, get. simpl. by rewrite Hinit. Qed.

Lemma stop_clears_task frame self : _receive_task (fields (stop frame self)) = None.
Proof.
  unfold stop, _stop_tasks, _close_websocket, try_except_Exception,
    bind, do, get, modify, await, ret, socket_call. simpl.
  destruct (_receive_task self) eqn:Ht; simpl; case_decide; simpl;
    try destruct (close_fails _); done.
Qed.

Lemma cancel_clears_task frame self : _receive_task (fields (cancel frame self)) = None.
Proof.
  unfold cancel, _stop_tasks, _close_websocket, try_except_Exception,
    bind, do, get, modify, await, ret, socket_call. simpl.
  destruct (_receive_task self) eqn:Ht; simpl; case_decide; simpl;
    try destruct (close_fails _); done.
Qed.

(** C10. After [start()] has run once, the latch is set and stays set
    through any later calls of [start()], [stop()] and [cancel()] and any
    change of the socket; none of those calls creates a receive task.  In
    particular [start()] after [stop()], or after [cancel()], leaves the
    relay without a receive task. *)
Theorem start_latch_is_permanent :
  forall (frame : Frame) (self : InputTransport) (later : list event),
    let started := fields (start frame self) in
    _initialized started = true
    /\ _initialized (run later started).1 = true
    /\ count is_create_task (run later started).2 = 0
    /\ (forall f1 f2, _receive_task (run [calls_stop f1; calls_start f2] started).1 = None)
    /\ (forall f1 f2, _receive_task (run [calls_cancel f1; calls_start f2] started).1 = None).
Proof.
  intros frame self later started.
  pose proof (start_sets_latch frame self) as Hinit. fold started in Hinit.
  destruct (run_keeps_latch later started Hinit) as [Hl Hn].
  split; [done|]. split; [done|]. split; [unfold count; by rewrite Hn|].
  split; intros f1 f2.
  - change (run [calls_stop f1; calls_start f2] started).1
      with (fields (start f2 (fields (stop f1 started)))).
    rewrite start_when_initialized; [apply stop_clears_task|].
    apply (step_keeps_latch (calls_stop f1) started Hinit).
  - change (run [calls_cancel f1; calls_start f2] started).1
      with (fields (start f2 (fields (cancel f1 started)))).
    rewrite start_when_initialized; [apply cancel_clears_task|].
    apply (step_keeps_latch (calls_cancel f1) started Hinit).
Qed.

(** *** Stopping *)

Lemma stop_tasks_run self :
  _stop_tasks self =
    match _receive_task self with
    | Some _ => (Return tt, set_receive_task None self, [cancel_task])
    | None => (Return tt, self, [])
    end.
Proof. unfold _stop_tasks, bind, get, do, modify. simpl. by destruct (_receive_task self). Qed.

Lemma close_websocket_run self :
  _close_websocket self =
    (Return tt, self,
     if decide (client_state (_websocket self) = CONNECTED) then [websocket_close] else []).
Proof.
  unfold _close_websocket, try_except_Exception, bind, get, await, ret, socket_call. simpl.
  case_decide; [|done]. by destruct (close_fails _).
Qed.

Lemma stop_run frame self :
  stop frame self =
    (Return tt,
     match _receive_task self with Some _ => set_receive_task None self | None => self end,
     super_stop frame ::
       match _receive_task self with Some _ => [cancel_task] | None => [] end
       ++ (if decide (client_state (_websocket self) = CONNECTED)
           then [websocket_close] else [])).
Proof.
  unfold stop, bind at 1 2. unfold do at 1. rewrite stop_tasks_run.
  destruct (_receive_task self); rewrite close_websocket_run; done.
Qed.

Lemma cancel_run frame self :
  cancel frame self =
    (Return tt,
     match _receive_task self with Some _ => set_receive_task None self | None => self end,
     super_cancel frame ::
       match _receive_task self with Some _ => [cancel_task] | None => [] end
       ++ (if decide (client_state (_websocket self) = CONNECTED)
           then [websocket_close] else [])).
Proof.
  unfold cancel, bind at 1 2. unfold do at 1. rewrite stop_tasks_run.
  destruct (_receive_task self); rewrite close_websocket_run; done.
Qed.

(** X1. [stop()] and [cancel()] always return, also when closing the socket
    fails.  After the base class's method they cancel the receive task when
    there is one, then close the socket when it is connected, and do nothing
    else; afterwards the relay holds no task.  The two differ in the base
    class's method only. *)
Theorem stop_and_cancel_never_raise :
  forall (frame : Frame) (self : InputTransport),
    let closing :=
      match _receive_task self with Some _ => [cancel_task] | None => [] end
      ++ (if decide (client_state (_websocket self) = CONNECTED)
          then [websocket_close] else []) in
    result (stop frame self) = Return tt
    /\ result (cancel frame self) = Return tt
    /\ trace (stop frame self) = super_stop frame :: closing
    /\ trace (cancel frame self) = super_cancel frame :: closing
    /\ fields (cancel frame self) = fields (stop frame self)
    /\ _receive_task (fields (stop frame self)) = None
    /\ _initialized (fields (stop frame self)) = _initialized self
    /\ session_id (fields (stop frame self)) = session_id self
    /\ call_sid (fields (stop frame self)) = call_sid self.
Proof.
  intros frame self closing. rewrite stop_run, cancel_run.
  repeat split; by destruct (_receive_task self) eqn:Ht.
Qed.

Lemma start_run frame self :
  start frame self =
    if _initialized self then (Return tt, self, [super_start frame])
    else match _receive_task self with
         | None =>
             (Return tt, set_receive_task (Some receive_task) (set_initialized true self),
              [super_start frame; create_task])
         | Some _ => (Return tt, set_initialized true self, [super_start frame])
         end.
Proof.
  unfold start, bind, do, get, modify, ret. simpl.
  destruct (_initialized self); [done|]. simpl. by destruct (_receive_task self).
Qed.

Lemma step_accounts ev self created cancelled :
  tasks_accounted self created cancelled ->
  tasks_accounted (fields (step ev self))
    (created + count is_create_task (trace (step ev self)))
    (cancelled + count is_cancel_task (trace (step ev self))).
Proof.
  unfold tasks_accounted, count.
  destruct ev as [frame|frame|frame|websocket]; simpl.
  - rewrite start_run.
    destruct (_initialized self) eqn:Hi, (_receive_task self) eqn:Ht;
      unfold fields, trace; simpl; rewrite ?Hi, ?Ht; simpl; lia.
  - rewrite stop_run.
    destruct (_initialized self) eqn:Hi, (_receive_task self) eqn:Ht;
      unfold fields, trace; simpl; rewrite ?Hi, ?Ht; case_decide; simpl; lia.
  - rewrite cancel_run.
    destruct (_initialized self) eqn:Hi, (_receive_task self) eqn:Ht;
      unfold fields, trace; simpl; rewrite ?Hi, ?Ht; case_decide; simpl; lia.
  - destruct (_initialized self), (_receive_task self); simpl; lia.
Qed.

Lemma run_accounts evs self created cancelled :
  tasks_accounted self created cancelled ->
  tasks_accounted (run evs self).1
    (created + count is_create_task (run evs self).2)
    (cancelled + count is_cancel_task (run evs self).2).
Proof.
  revert self created cancelled.
  induction evs as [|ev rest IH]; intros self created cancelled Hacc; simpl.
  - unfold count. simpl. by rewrite !Nat.add_0_r.
  - apply (step_accounts ev) in Hacc. apply IH in Hacc.
    unfold count in *. rewrite !List.filter_app, !length_app.
    by rewrite !Nat.add_assoc.
Qed.

(** X2. From its construction on, through any calls of [start()], [stop()]
    and [cancel()] and any changes of the socket, a relay creates at most
    one receive task and cancels no more tasks than it created.  The latch
    is set exactly when the task has been created, and the relay holds a
    task exactly when it created one and has not cancelled it. *)
Theorem one_receive_task_per_relay :
  forall (websocket : WebSocket) (params : ref)
         (callbacks : option ConversationRelayCallbacks) (evs : list event),
    let r := run evs (__init__ websocket params callbacks) in
    let created := count is_create_task r.2 in
    let cancelled := count is_cancel_task r.2 in
    created <= 1
    /\ cancelled <= created
    /\ (_initialized r.1 = true <-> created = 1)
    /\ (is_Some (_receive_task r.1) <-> created = 1 /\ cancelled = 0).
Proof.
  intros websocket params callbacks evs r created cancelled.
  assert (Hacc : tasks_accounted r.1 created cancelled).
  { apply (run_accounts evs (__init__ websocket params callbacks) 0 0). by split. }
  unfold tasks_accounted in Hacc.
  destruct (_initialized r.1), (_receive_task r.1) as [t|]; try done;
    destruct Hacc as [-> ->]; repeat split; try lia; try done; try (intros [x [=]]);
    try (intros [? ?]; lia); eauto.
Qed.

(** *** The callbacks *)

Lemma handle_setup_run message self :
  _handle_setup message self =
    let stored := set_session (dict_get message "sessionId") (dict_get message "callSid") self in
    let event :=
      {| Types.session_id := dict_get_or message "sessionId" (VStr "");
         Types.call_sid := dict_get_or message "callSid" (VStr "");
         account_sid := dict_get message "accountSid";
         from_number := dict_get message "from";
         to_number := dict_get message "to";
         direction := dict_get message "direction";
         call_status := dict_get message "callStatus";
         call_type := dict_get message "callType";
         caller_name := dict_get message "callerName";
         forwarded_from := dict_get message "forwardedFrom";
         parent_call_sid := dict_get message "parentCallSid";
         custom_parameters := dict_get_or message "customParameters" (VDict ∅) |} in
    match on_setup (_callbacks self) with
    | Some f => (f event, stored, [call_on_setup event])
    | None => (Return tt, stored, [])
    end.
Proof.
  unfold _handle_setup, bind, modify, get, invoke, await, ret. simpl.
  by destruct (on_setup (_callbacks self)).
Qed.

Lemma handle_interrupt_run message self :
  _handle_interrupt message self =
    let event :=
      {| utterance_until_interrupt := dict_get message "utteranceUntilInterrupt";
         duration_until_interrupt_ms := dict_get message "durationUntilInterruptMs" |} in
    match on_interrupt (_callbacks self) with
    | Some f => (f event, self, [call_on_interrupt event])
    | None => (Return tt, self, [])
    end.
Proof.
  unfold _handle_interrupt, bind, get, invoke, await, ret. simpl.
  by destruct (on_interrupt (_callbacks self)).
Qed.

Lemma handle_dtmf_run message self :
  _handle_dtmf message self =
    let event := {| digit := dict_get_or message "digit" (VStr "") |} in
    match on_dtmf (_callbacks self) with
    | Some f => (f event, self, [call_on_dtmf event])
    | None => (Return tt, self, [])
    end.
Proof.
  unfold _handle_dtmf, bind, get, invoke, await, ret. simpl.
  by destruct (on_dtmf (_callbacks self)).
Qed.

(** X3. With [on_setup] registered, a setup message calls it once and nothing
    else; the identity is stored before the call, so it is stored whether
    the callback returns or raises.  The event and the relay agree on the
    session id when the message has one; when it has none the event says
    [""] and the relay [None].  Missing custom parameters are an empty
    dict. *)
Theorem setup_event_and_identity :
  forall (message : gmap string value) (self : InputTransport)
         (f : SetupEventData -> outcome unit),
    on_setup (_callbacks self) = Some f ->
    let r := _handle_setup message self in
    exists event,
      trace r = [call_on_setup event]
      /\ result r = f event
      /\ Types.session_id event = default (VStr "") (message !! "sessionId")
      /\ Types.call_sid event = default (VStr "") (message !! "callSid")
      /\ custom_parameters event = default (VDict ∅) (message !! "customParameters")
      /\ session_id (fields r) = default VNone (message !! "sessionId")
      /\ call_sid (fields r) = default VNone (message !! "callSid")
      /\ (is_Some (message !! "sessionId") ->
          Types.session_id event = session_id (fields r))
      /\ (message !! "sessionId" = None ->
          Types.session_id event = VStr "" /\ session_id (fields r) = VNone).
Proof.
  intros message self f Hf r. subst r. rewrite handle_setup_run. cbv zeta. rewrite Hf.
  eexists. split; [reflexivity|]. split; [reflexivity|].
  unfold fields, session_id, call_sid, dict_get, dict_get_or. simpl.
  do 5 (split; [done|]). split; [by intros [v ->]|by intros ->].
Qed.

(** X3 at a setup message without a session id. *)
Lemma setup_event_and_identity_witness :
  exists event,
    trace (_handle_setup {["type" := VStr "setup"]}
             (__init__ live_socket 1%positive
                (Some {| on_setup := Some (fun _ => Return tt); on_interrupt := None;
                         on_dtmf := None; on_error := None |})))
      = [call_on_setup event]
    /\ Types.session_id event = VStr "".
Proof.
  destruct (setup_event_and_identity {["type" := VStr "setup"]}
             (__init__ live_socket 1%positive
                (Some {| on_setup := Some (fun _ => Return tt); on_interrupt := None;
                         on_dtmf := None; on_error := None |}))
             (fun _ => Return tt) eq_refl) as (event & Ht & _ & Hs & _).
  exists event. split; [exact Ht|exact Hs].
Defined.

(** *** What a message can put into the pipeline *)

Lemma eq_str_true v s : eq_str v s = true -> v = VStr s.
Proof. destruct v; simpl; try done. by intros ->%String.eqb_eq. Qed.

Lemma dict_get_str message key s :
  dict_get message key = VStr s -> message !! key = Some (VStr s).
Proof. unfold dict_get. destruct (message !! key); simpl; [by intros ->|done]. Qed.

(** X4. Only prompt and error messages put a frame into the pipeline: a
    frame pushed while a message is handled is a transcription frame of a
    [prompt] or an error frame of an [error].  Setup, interrupt and DTMF
    messages, and messages of unknown type, push nothing. *)
Theorem frames_come_from_prompts_and_errors :
  forall (now : string) (message : value) (self : InputTransport) (c : call),
    c ∈ trace (dispatch now message self) ->
    is_push_frame c = true ->
    exists d, message = VDict d
      /\ ((d !! "type" = Some (VStr "prompt") /\ is_transcription c = true)
          \/ (d !! "type" = Some (VStr "error") /\ is_error_frame c = true)).
Proof.
  intros now message self c Hin Hpush.
  destruct message as [| | | | | |d]; try (by apply elem_of_nil in Hin).
  exists d. split; [done|]. simpl in Hin.
  destruct (eq_str (dict_get d "type") "setup") eqn:H1.
  { rewrite handle_setup_run in Hin. cbv zeta in Hin.
    destruct (on_setup _); unfold trace in Hin; simpl in Hin.
    - apply list_elem_of_singleton in Hin. by subst.
    - by apply elem_of_nil in Hin. }
  destruct (eq_str (dict_get d "type") "prompt") eqn:H2.
  { left. split; [by apply dict_get_str, eq_str_true|].
    rewrite handle_prompt_run in Hin. cbv zeta in Hin.
    repeat case_match; unfold trace in Hin; simpl in Hin;
      try (by apply elem_of_nil in Hin).
    apply list_elem_of_singleton in Hin. by subst. }
  destruct (eq_str (dict_get d "type") "interrupt") eqn:H3.
  { rewrite handle_interrupt_run in Hin. cbv zeta in Hin.
    destruct (on_interrupt _); unfold trace in Hin; simpl in Hin.
    - apply list_elem_of_singleton in Hin. by subst.
    - by apply elem_of_nil in Hin. }
  destruct (eq_str (dict_get d "type") "dtmf") eqn:H4.
  { rewrite handle_dtmf_run in Hin. cbv zeta in Hin.
    destruct (on_dtmf _); unfold trace in Hin; simpl in Hin.
    - apply list_elem_of_singleton in Hin. by subst.
    - by apply elem_of_nil in Hin. }
  destruct (eq_str (dict_get d "type") "error") eqn:H5.
  { right. split; [by apply dict_get_str, eq_str_true|].
    rewrite handle_error_run in Hin. cbv zeta in Hin.
    repeat case_match; unfold trace in Hin; simpl in Hin.
    - apply elem_of_cons in Hin as [->|Hin]; [done|].
      apply list_elem_of_singleton in Hin. by subst.
    - apply list_elem_of_singleton in Hin. by subst.
    - apply list_elem_of_singleton in Hin. by subst. }
  by apply elem_of_nil in Hin.
Qed.

(** X4 at the frame of an error message. *)
Lemma frames_come_from_prompts_and_errors_witness :
  exists d, VDict error_message = VDict d
    /\ ((d !! "type" = Some (VStr "prompt")
         /\ is_transcription (push_frame (ErrorFrame (VStr "Something went wrong")) DOWNSTREAM)
            = true)
        \/ (d !! "type" = Some (VStr "error")
            /\ is_error_frame (push_frame (ErrorFrame (VStr "Something went wrong")) DOWNSTREAM)
               = true)).
Proof.
  apply (frames_come_from_prompts_and_errors "0.0" (VDict error_message) fresh_input
           (push_frame (ErrorFrame (VStr "Something went wrong")) DOWNSTREAM)).
  - vm_compute. apply list_elem_of_here.
  - reflexivity.
Defined.

(** *** Payloads the loop passes over *)

Lemma dispatch_unknown_type now d self :
  known_type (dict_get d "type") = false ->
  dispatch now (VDict d) self = (Return tt, self, []).
Proof.
  unfold known_type. intros H. simpl.
  repeat (apply orb_false_iff in H as [H ?]).
  by repeat case_match.
Qed.

Lemma receive_loop_only_logged text rest fin self :
  only_logged text = true ->
  receive_loop (text :: rest) fin self = receive_loop rest fin self.
Proof.
  unfold only_logged. intros H. simpl.
  destruct (loads text) as [[| | | | | |d]|]; try done.
  apply negb_true_iff in H. unfold bind. rewrite (dispatch_unknown_type _ _ _ H).
  by destruct (receive_loop rest fin self) as [[r s] t].
Qed.

(** X5. Payloads that are not JSON and objects whose [type] has no handler
    (a missing [type] and one that is not a string included) change
    nothing: the relay ends up with the same result, fields and calls as
    if they had not been sent, wherever they stand among the others. *)
Theorem only_logged_payloads_are_skipped :
  forall (texts : list payload) (fin : ending) (self : InputTransport),
    _receive_messages texts fin self
    = _receive_messages (List.filter (fun text => negb (only_logged text)) texts) fin self.
Proof.
  intros texts fin self. unfold _receive_messages.
  assert (H : forall s, receive_loop texts fin s
              = receive_loop (List.filter (fun text => negb (only_logged text)) texts) fin s).
  { induction texts as [|text rest IH]; intros s; [done|].
    cbn [List.filter]. destruct (only_logged text) eqn:Hl; cbn [negb].
    - by rewrite receive_loop_only_logged.
    - simpl. destruct (loads text); [|apply IH].
      unfold bind. destruct (dispatch _ _ s) as [[[[]|e] s1] t1]; [|done].
      by rewrite IH. }
  unfold bind, try_except_Exception. by rewrite H.
Qed.

(** *** A handler that raises *)

(** X6. When handling a message raises an [Exception], the receive loop is
    over: [_receive_messages] returns, with the calls made up to the
    exception followed by one cancel frame, and the payloads after that
    message are not handled, whatever they are and however the socket
    ends. *)
Theorem handler_exception_ends_the_loop :
  forall (text : payload) (message : value) (rest : list payload) (fin : ending)
         (self : InputTransport) (e : exn),
    loads text = Some message ->
    result (dispatch (clock text) message self) = Raise e ->
    is_Exception e = true ->
    _receive_messages (text :: rest) fin self
    = (Return tt, fields (dispatch (clock text) message self),
       trace (dispatch (clock text) message self) ++ [push_frame CancelFrame DOWNSTREAM]).
Proof.
  intros text message rest fin self e Hl Hr He.
  unfold _receive_messages.
  unfold bind at 1. unfold try_except_Exception.
  rewrite (dispatch_raise_ends_loop text message rest fin self e Hl Hr).
  unfold result, fields, trace in *.
  destruct (dispatch (clock text) message self) as [[r s1] t1]. simpl in *. subst r.
  by rewrite He.
Qed.

(** X6 at a payload that is JSON but no object, followed by a prompt. *)
Lemma handler_exception_ends_the_loop_witness :
  _receive_messages [text_of (VList [VInt 1]); hi_prompt] Exhausted fresh_input
  = (Return tt, fields (dispatch "1700000000.0" (VList [VInt 1]) fresh_input),
     trace (dispatch "1700000000.0" (VList [VInt 1]) fresh_input)
       ++ [push_frame CancelFrame DOWNSTREAM]).
Proof.
  apply (handler_exception_ends_the_loop (text_of (VList [VInt 1])) (VList [VInt 1])
           [hi_prompt] Exhausted fresh_input AttributeError); reflexivity.
Defined.

(** *** Prompts *)

(** X7. [_handle_prompt] raises exactly when the prompt is final and its
    [voicePrompt] is there but is not a string; the exception is
    [AttributeError].  A prompt that is not final returns whatever its
    text is, and so does one without [voicePrompt]. *)
Theorem handle_prompt_raises_iff :
  forall (now : string) (message : gmap string value) (self : InputTransport),
    let last := dict_get_or message "last" (VBool false) in
    let voice_prompt := dict_get_or message "voicePrompt" (VStr "") in
    let r := _handle_prompt now message self in
    (result r = Raise AttributeError
     <-> truthy last = true /\ forall s, voice_prompt <> VStr s)
    /\ (result r = Return tt
        <-> truthy last = false \/ exists s, voice_prompt = VStr s)
    /\ (message !! "voicePrompt" = None -> result r = Return tt).
Proof.
  intros now message self last voice_prompt r.
  assert (Hres : result r =
     if truthy last
     then match voice_prompt with VStr _ => Return tt | _ => Raise AttributeError end
     else Return tt).
  { subst r. rewrite handle_prompt_run. cbv zeta. fold last voice_prompt.
    destruct (truthy last); simpl; [|done].
    destruct voice_prompt; try done. by destruct (keeps_text _). }
  assert (Hmiss : message !! "voicePrompt" = None -> voice_prompt = VStr "").
  { intros H. subst voice_prompt. unfold dict_get_or. by rewrite H. }
  rewrite Hres. clear Hres. destruct (truthy last).
  - split; [|split].
    + split.
      * intros H. split; [done|]. intros s Hs. by rewrite Hs in H.
      * intros [_ H]. destruct voice_prompt; try done. by destruct (H s).
    + split.
      * intros H. right. destruct voice_prompt; try done. eauto.
      * intros [H|[s ->]]; done.
    + by intros ->%Hmiss.
  - split; [|split]; [split; [done|by intros [? _]]|split; eauto|done].
Qed.

Lemma dispatch_prompt now d self :
  d !! "type" = Some (VStr "prompt") ->
  dispatch now (VDict d) self = _handle_prompt now d self.
Proof. intros H. unfold dispatch, dict_get. by rewrite H. Qed.

Lemma prompt_of_run u self :
  match loads (prompt_of u) with
  | Some message => dispatch (clock (prompt_of u)) message self
  | None => (Raise RuntimeError, self, [])
  end
  = (Return tt, self, if transcribed u then [transcription_of u] else []).
Proof.
  unfold transcribed, transcription_of, prompt_of.
  destruct u as [h f [l|] t]; cbn [loads clock heard final spoken_in received_at].
  - rewrite dispatch_prompt by reflexivity.
    rewrite handle_prompt_run. cbv zeta.
    change (dict_get_or _ "last" _) with (VBool f).
    change (dict_get_or _ "voicePrompt" _) with (VStr h).
    change (dict_get _ "lang") with (VStr l).
    destruct f; simpl; [|done]. by destruct (negb _).
  - rewrite dispatch_prompt by reflexivity.
    rewrite handle_prompt_run. cbv zeta.
    change (dict_get_or _ "last" _) with (VBool f).
    change (dict_get_or _ "voicePrompt" _) with (VStr h).
    change (dict_get _ "lang") with VNone.
    destruct f; simpl; [|done]. by destruct (negb _).
Qed.

(** X8. Of a run of prompts the relay turns the final ones whose text is not
    blank into transcription frames, in the order received, each with the
    text as heard, the prompt's language ([None] without one) and the time
    it was handled; the others leave no trace.  When the peer disconnects
    the cancel frame follows them. *)
Theorem final_prompts_become_transcriptions :
  forall (said : list utterance) (fin : ending) (self : InputTransport),
    receive_loop (map prompt_of said) fin self
    = (match fin with Exhausted => Return tt | Raises e => Raise e end,
       self,
       map transcription_of (List.filter transcribed said))
    /\ _receive_messages (map prompt_of said) Exhausted self
       = (Return tt, self,
          map transcription_of (List.filter transcribed said)
            ++ [push_frame CancelFrame DOWNSTREAM]).
Proof.
  intros said fin self.
  assert (H : forall fin, receive_loop (map prompt_of said) fin self
     = (match fin with Exhausted => Return tt | Raises e => Raise e end,
        self, map transcription_of (List.filter transcribed said)));
    [|split; [apply H|
       unfold _receive_messages, bind, try_except_Exception; by rewrite H]].
  clear fin. intros fin. induction said as [|u rest IH].
  - simpl. by destruct fin.
  - cbn [map List.filter receive_loop].
    pose proof (prompt_of_run u self) as Hu.
    destruct (loads (prompt_of u)) as [message|] eqn:Hl; [|done].
    unfold bind. rewrite Hu, IH.
    by destruct (transcribed u).
Qed.

(** *** What receiving leaves alone *)

Lemma same_but_identity_refl s : same_but_identity s s.
Proof. by repeat split. Qed.

Lemma same_but_identity_trans s1 s2 s3 :
  same_but_identity s1 s2 -> same_but_identity s2 s3 -> same_but_identity s1 s3.
Proof.
  unfold same_but_identity. intros (?&?&?&?&?) (?&?&?&?&?).
  repeat split; congruence.
Qed.

Lemma dispatch_same_but_identity now message self :
  same_but_identity self (fields (dispatch now message self)).
Proof.
  destruct message as [| | | | | |d]; try apply same_but_identity_refl.
  simpl. repeat case_match; try apply same_but_identity_refl.
  - rewrite handle_setup_run. cbv zeta. by destruct (on_setup _).
  - rewrite handle_prompt_run. cbv zeta.
    repeat case_match; apply same_but_identity_refl.
  - rewrite handle_interrupt_run. cbv zeta.
    destruct (on_interrupt _); apply same_but_identity_refl.
  - rewrite handle_dtmf_run. cbv zeta.
    destruct (on_dtmf _); apply same_but_identity_refl.
  - rewrite handle_error_run. cbv zeta.
    repeat case_match; apply same_but_identity_refl.
Qed.

Lemma receive_loop_same_but_identity texts fin self :
  same_but_identity self (fields (receive_loop texts fin self)).
Proof.
  revert self. induction texts as [|text rest IH]; intros self; simpl.
  - destruct fin; apply same_but_identity_refl.
  - destruct (loads text) as [message|]; [|apply IH].
    rewrite bind_fields.
    pose proof (dispatch_same_but_identity (clock text) message self) as Hd.
    destruct (result _); [|done].
    eapply same_but_identity_trans; [exact Hd|apply IH].
Qed.

(** X9. Whatever is received, [_receive_messages] changes no field of the
    relay but the session identity: latch, receive task, socket, callbacks
    and parameters are as before. *)
Theorem receiving_changes_identity_only :
  forall (texts : list payload) (fin : ending) (self : InputTransport),
    let after := fields (_receive_messages texts fin self) in
    _initialized after = _initialized self
    /\ _receive_task after = _receive_task self
    /\ _websocket after = _websocket self
    /\ _callbacks after = _callbacks self
    /\ _params after = _params self.
Proof.
  intros texts fin self after.
  destruct (receive_loop_same_but_identity texts fin self) as (Hp & Hw & Hc & Ht & Hi).
  subst after. unfold _receive_messages, bind, try_except_Exception, do, fields in *.
  destruct (receive_loop texts fin self) as [[[[]|e] s1] t1]; simpl in *;
    [done|by destruct (is_Exception e)].
Qed.

(** *** Blank prompts *)

(** X18. A final prompt whose text is a string is dropped exactly when the
    text is whitespace from end to end, the empty text included; with one
    other character in it the text goes out whole, the whitespace around
    it too. *)
Theorem blank_prompts_are_dropped :
  forall (now : string) (message : gmap string value) (self : InputTransport) (s : string),
    truthy (dict_get_or message "last" (VBool false)) = true ->
    message !! "voicePrompt" = Some (VStr s) ->
    (trace (_handle_prompt now message self) = [] <-> all_space s = true)
    /\ (all_space s = false ->
        trace (_handle_prompt now message self)
        = [push_frame (TranscriptionFrame (VStr s) (VStr "") (VStr now)
                         (dict_get message "lang")) DOWNSTREAM]).
Proof.
  intros now message self s Hlast Hs.
  rewrite handle_prompt_run. cbv zeta. rewrite Hlast. simpl.
  unfold dict_get_or. rewrite Hs. simpl.
  destruct (String.eqb (strip s) "") eqn:He; simpl.
  - apply String.eqb_eq, strip_empty_iff in He. rewrite He. by split.
  - apply String.eqb_neq in He.
    assert (Hn : all_space s = false).
    { destruct (all_space s) eqn:Ha; [|done]. by apply strip_empty_iff in Ha. }
    rewrite Hn. by split.
Qed.

(** X18 at a final prompt of two spaces. *)
Lemma blank_prompts_are_dropped_witness :
  (trace (_handle_prompt "0.0"
            (<["voicePrompt" := VStr "  "]> {["last" := VBool true]}) fresh_input) = []
   <-> all_space "  " = true)
  /\ (all_space "  " = false ->
      trace (_handle_prompt "0.0"
               (<["voicePrompt" := VStr "  "]> {["last" := VBool true]}) fresh_input)
      = [push_frame (TranscriptionFrame (VStr "  ") (VStr "") (VStr "0.0")
                       (dict_get (<["voicePrompt" := VStr "  "]> {["last" := VBool true]})
                          "lang")) DOWNSTREAM]).
Proof.
  apply (blank_prompts_are_dropped "0.0"
           (<["voicePrompt" := VStr "  "]> {["last" := VBool true]}) fresh_input "  ");
    reflexivity.
Defined.

(** *** Stopping again *)

(** X19. Once stopped, a relay is not changed by a further [stop()] or
    [cancel()]: neither cancels or creates a task. *)
Theorem stopping_again_cancels_nothing :
  forall (f1 f2 : Frame) (self : InputTransport),
    let stopped := fields (stop f1 self) in
    fields (stop f2 stopped) = stopped
    /\ fields (cancel f2 stopped) = stopped
    /\ count is_cancel_task (trace (stop f2 stopped)) = 0
    /\ count is_cancel_task (trace (cancel f2 stopped)) = 0
    /\ count is_create_task (trace (stop f2 stopped)) = 0.
Proof.
  intros f1 f2 self stopped.
  assert (Hnone : _receive_task stopped = None) by apply stop_clears_task.
  rewrite stop_run, cancel_run, Hnone. unfold fields, trace, count. simpl.
  repeat split; by case_decide.
Qed.

(** *** One message after the other *)

Lemma receive_loop_app texts1 texts2 fin self :
  receive_loop (texts1 ++ texts2) fin self
  = match receive_loop texts1 Exhausted self with
    | (Return _, s1, t1) =>
        let '(r, s2, t2) := receive_loop texts2 fin s1 in (r, s2, t1 ++ t2)
    | (Raise e, s1, t1) => (Raise e, s1, t1)
    end.
Proof.
  revert self. induction texts1 as [|text rest IH]; intros self; simpl.
  - by destruct (receive_loop texts2 fin self) as [[r s2] t2].
  - destruct (loads text) as [message|]; [|apply IH].
    unfold bind. destruct (dispatch (clock text) message self) as [[[[]|e] s0] t0]; [|done].
    rewrite IH. destruct (receive_loop rest Exhausted s0) as [[[[]|e] s1] t1]; [|done].
    destruct (receive_loop texts2 fin s1) as [[r s2] t2]. by rewrite app_assoc.
Qed.

(** X20. Messages are handled one after the other: when the first part of
    what is received is handled without an exception, the rest is handled
    as if received by the relay the first part left, and the calls of the
    two follow each other. *)
Theorem receiving_in_two_parts :
  forall (earlier later : list payload) (fin : ending) (self : InputTransport),
    result (receive_loop earlier Exhausted self) = Return tt ->
    let first := receive_loop earlier Exhausted self in
    let second := receive_loop later fin (fields first) in
    receive_loop (earlier ++ later) fin self
    = (result second, fields second, trace first ++ trace second).
Proof.
  intros earlier later fin self Hret first second. subst first second.
  rewrite receive_loop_app. unfold result, fields, trace in *.
  destruct (receive_loop earlier Exhausted self) as [[[[]|e] s1] t1]; simpl in *; [|done].
  by destruct (receive_loop later fin s1) as [[r s2] t2].
Qed.

(** X20 at a setup message followed by a prompt. *)
Lemma receiving_in_two_parts_witness :
  receive_loop ([setup_of "VX1" "CA1"] ++ [hi_prompt]) Exhausted fresh_input
  = (result (receive_loop [hi_prompt] Exhausted
               (fields (receive_loop [setup_of "VX1" "CA1"] Exhausted fresh_input))),
     fields (receive_loop [hi_prompt] Exhausted
               (fields (receive_loop [setup_of "VX1" "CA1"] Exhausted fresh_input))),
     trace (receive_loop [setup_of "VX1" "CA1"] Exhausted fresh_input)
       ++ trace (receive_loop [hi_prompt] Exhausted
                   (fields (receive_loop [setup_of "VX1" "CA1"] Exhausted fresh_input)))).
Proof.
  apply (receiving_in_two_parts [setup_of "VX1" "CA1"] [hi_prompt] Exhausted fresh_input).
  reflexivity.
Defined.

End InputProperties.

(** ** The outbound relay *)

Module OutputProperties.

Import Output.

(** [_send_json] returns, whatever the socket does; the socket is called
    only when it is connected. *)
Lemma send_json_run message self :
  _send_json message self = (Return tt, self, on_the_wire self message).
Proof.
  unfold _send_json, on_the_wire, try_except_Exception, bind, get, await, ret, socket_call.
  simpl. case_decide; [|done].
  by destruct (send_json_fails _ _).
Qed.

Lemma send_text_token_run token self :
  _send_text_token token self =
    (Return tt, self, on_the_wire self (text_message token (_interruptible self))).
Proof. unfold _send_text_token, bind, get. simpl. by rewrite send_json_run. Qed.

Lemma send_last_token_run self :
  _send_last_token self = (Return tt, self, on_the_wire self last_message).
Proof. unfold _send_last_token. by rewrite send_json_run. Qed.

(** [process_frame]: the send comes first, then the frame is forwarded. *)
Lemma process_frame_run frame direction self :
  process_frame frame direction self =
    (Return tt, self,
     if is_LLMFullResponseEndFrame frame
     then on_the_wire self last_message ++ [push_frame frame direction]
     else match as_TextFrame frame with
          | Some text =>
              on_the_wire self (text_message text (_interruptible self))
                ++ [push_frame frame direction]
          | None => [super_process_frame frame direction]
          end).
Proof.
  unfold process_frame. destruct (is_LLMFullResponseEndFrame frame).
  - unfold bind. by rewrite send_last_token_run.
  - destruct (as_TextFrame frame) as [text|]; [|done].
    unfold bind. by rewrite send_text_token_run.
Qed.

Lemma process_frames_cons frame rest direction self :
  process_frames (frame :: rest) direction self =
    (result (process_frames rest direction self),
     fields (process_frames rest direction self),
     trace (process_frame frame direction self)
       ++ trace (process_frames rest direction self)).
Proof.
  simpl. unfold bind. rewrite process_frame_run.
  by destruct (process_frames rest direction self) as [[r s2] t2].
Qed.

Lemma sent_app t1 t2 : sent (t1 ++ t2) = sent t1 ++ sent t2.
Proof. apply omap_app. Qed.

Lemma sent_send message t : sent (websocket_send_json message :: t) = message :: sent t.
Proof. reflexivity. Qed.

Lemma sent_other frame direction t : sent (push_frame frame direction :: t) = sent t.
Proof. reflexivity. Qed.

(** C2. On a connected socket, [N] text frames followed by the frame that
    ends the response make the relay call the socket's [send_json] [N + 1]
    times: once per text frame, in order, with the frame's text as token,
    [last] false and the relay's [interruptible]; then once with the empty
    token, [last] true and [interruptible] false.  Each frame is forwarded
    right after its send.  With [N = 0] the last message is still sent. *)
Theorem streamed_response_sends :
  forall (tokens : list value) (direction : FrameDirection) (self : OutputTransport),
    client_state (_websocket self) = CONNECTED ->
    let r := process_frames (map TextFrame tokens ++ [LLMFullResponseEndFrame])
               direction self in
    sent (trace r) =
      map (fun token => text_message token (_interruptible self)) tokens ++ [last_message]
    /\ trace r =
         flat_map (fun token =>
                     [websocket_send_json (text_message token (_interruptible self));
                      push_frame (TextFrame token) direction]) tokens
         ++ [websocket_send_json last_message;
             push_frame LLMFullResponseEndFrame direction]
    /\ length (sent (trace r)) = S (length tokens)
    /\ result r = Return tt.
Proof.
  intros tokens direction self Hconn r.
  assert (Htrace : trace r =
     flat_map (fun token =>
                 [websocket_send_json (text_message token (_interruptible self));
                  push_frame (TextFrame token) direction]) tokens
     ++ [websocket_send_json last_message;
         push_frame LLMFullResponseEndFrame direction]
     /\ result r = Return tt).
  { subst r. induction tokens as [|token rest IH].
    - simpl. unfold bind. rewrite process_frame_run. simpl.
      unfold on_the_wire. by rewrite decide_True.
    - cbn [map app]. rewrite process_frames_cons.
      destruct IH as [IHt IHr]. split; [|exact IHr].
      unfold trace at 1. cbn [snd]. rewrite IHt, process_frame_run. simpl.
      unfold on_the_wire. by rewrite decide_True. }
  destruct Htrace as [Htrace Hres].
  assert (Hsent : sent (trace r) =
     map (fun token => text_message token (_interruptible self)) tokens ++ [last_message]).
  { rewrite Htrace, sent_app. f_equal.
    clear. induction tokens as [|token rest IH]; [done|].
    cbn [flat_map map app]. by rewrite sent_send, sent_other, IH. }
  split; [done|]. split; [done|]. split; [|done].
  rewrite Hsent, length_app, length_map. simpl. lia.
Qed.

(** C2 at two tokens. *)
Lemma streamed_response_sends_witness :
  sent (trace (process_frames
                 [TextFrame (VStr "The "); TextFrame (VStr "weather ");
                  LLMFullResponseEndFrame] DOWNSTREAM fresh_output))
    = [text_message (VStr "The ") true; text_message (VStr "weather ") true; last_message].
Proof.
  apply (streamed_response_sends [VStr "The "; VStr "weather "] DOWNSTREAM fresh_output).
  reflexivity.
Defined.

(** *** The explicit operations *)

Lemma send_end_session_run handoff_data self :
  exists message, send_end_session handoff_data self = _send_json message self.
Proof. unfold send_end_session. eauto. Qed.

Lemma send_play_run source loop interruptible preemptible self :
  exists message, send_play source loop interruptible preemptible self = _send_json message self.
Proof. unfold send_play, bind, get. simpl. destruct (_send_json _ self) as [[r s] t] eqn:H.
  eexists. by rewrite H. Qed.

(** Every operation that passes its own argument check is one call of
    [_send_json]. *)
Lemma perform_is_send_json op self :
  precondition op = true ->
  exists message, perform op self = _send_json message self.
Proof.
  intros Hpre. destruct op as [token| |h|s l i p|d|tts tr]; simpl.
  - unfold _send_text_token, bind, get. simpl.
    destruct (_send_json _ self) as [[r s] t] eqn:H. eexists. by rewrite H.
  - unfold _send_last_token. eauto.
  - apply send_end_session_run.
  - apply send_play_run.
  - unfold send_digits. eauto.
  - unfold send_language. destruct tts, tr; try done; eauto.
Qed.

(** C7. [send_language] with neither language raises [ValueError] and does
    not touch the socket.  With exactly one language it raises nothing and
    hands [_send_json] a message whose only keys are [type] and the key of
    that language; on a connected socket that message is what is sent. *)
Theorem send_language_payload :
  forall (self : OutputTransport) (language : string),
    send_language None None self = (Raise ValueError, self, [])
    /\ send_language (Some language) None self
       = _send_json (<["ttsLanguage" := VStr language]> {["type" := VStr "language"]}) self
    /\ send_language None (Some language) self
       = _send_json (<["transcriptionLanguage" := VStr language]>
                       {["type" := VStr "language"]}) self
    /\ dom (<["ttsLanguage" := VStr language]> {["type" := VStr "language"]}
              : gmap string value)
       = ({["ttsLanguage"; "type"]} : gset string)
    /\ dom (<["transcriptionLanguage" := VStr language]> {["type" := VStr "language"]}
              : gmap string value)
       = ({["transcriptionLanguage"; "type"]} : gset string)
    /\ result (send_language (Some language) None self) = Return tt
    /\ result (send_language None (Some language) self) = Return tt
    /\ trace (send_language (Some language) None self)
       = on_the_wire self (<["ttsLanguage" := VStr language]> {["type" := VStr "language"]})
    /\ trace (send_language None (Some language) self)
       = on_the_wire self (<["transcriptionLanguage" := VStr language]>
                             {["type" := VStr "language"]}).
Proof.
  intros self language.
  split; [done|]. split; [done|]. split; [done|].
  split; [by rewrite dom_insert_L, dom_singleton_L|].
  split; [by rewrite dom_insert_L, dom_singleton_L|].
  unfold send_language. by rewrite !send_json_run.
Qed.

(** The only call that fails its argument check. *)
Lemma precondition_false_iff op :
  precondition op = false <-> op = op_language None None.
Proof.
  split; [|by intros ->].
  by destruct op as [| | | | |[] []].
Qed.

(** C8, as amended.  Every outbound operation (text token, last token, end,
    play, sendDigits, language) leaves the relay as it was, calls the socket
    at most once, and not at all unless the socket is connected.  It returns
    without raising, whatever the state of the socket and whether or not
    the socket's send fails, with one exception: [send_language] with
    neither language raises [ValueError], before the socket is looked at. *)
Theorem outbound_send_discipline :
  forall (op : operation) (self : OutputTransport),
    result (perform op self) = (if precondition op then Return tt else Raise ValueError)
    /\ fields (perform op self) = self
    /\ length (sent (trace (perform op self)))
       = (if precondition op && bool_decide (client_state (_websocket self) = CONNECTED)
          then 1 else 0)
    /\ (if decide (client_state (_websocket self) = CONNECTED)
        then True
        else trace (perform op self) = [])
    /\ (precondition op = false <-> op = op_language None None).
Proof.
  intros op self. destruct (precondition op) eqn:Hpre.
  - destruct (perform_is_send_json op self Hpre) as [message ->].
    rewrite send_json_run. unfold on_the_wire.
    split; [done|]. split; [done|].
    assert (Hne : true = false <-> op = op_language None None).
    { split; [done|]. intros ->. discriminate Hpre. }
    case_decide; [by rewrite bool_decide_true|by rewrite bool_decide_false].
  - apply precondition_false_iff in Hpre as ->. simpl.
    repeat split; try done. by case_decide.
Qed.

(** C8, the claim as it stands fails: on a closed socket [send_language]
    with neither language raises. *)
Lemma unsupplied_language_raises_when_disconnected :
  client_state (_websocket dead_output) <> CONNECTED
  /\ perform (op_language None None) dead_output = (Raise ValueError, dead_output, [])
  /\ result (perform (op_language None None) dead_output) <> Return tt.
Proof. repeat split; done. Qed.

(** The argument check of [send_language] comes before the socket is looked
    at: without a language the call raises on a closed socket too, and
    sends nothing. *)
Lemma send_language_unsupplied_raises self :
  perform (op_language None None) self = (Raise ValueError, self, []).
Proof. reflexivity. Qed.

(** On a socket that is not connected no operation reaches the socket. *)
Lemma disconnected_sends_nothing op self :
  client_state (_websocket self) <> CONNECTED ->
  trace (perform op self) = [].
Proof.
  intros Hdis. destruct (precondition op) eqn:Hpre.
  - destruct (perform_is_send_json op self Hpre) as [message ->].
    rewrite send_json_run. unfold on_the_wire. by rewrite decide_False.
  - by destruct op as [| | | | |[] []].
Qed.

(** *** Any run of frames *)

Lemma process_frame_sent frame direction self :
  sent (trace (process_frame frame direction self))
  = if decide (client_state (_websocket self) = CONNECTED)
    then option_list (wire_message (_interruptible self) frame)
    else [].
Proof.
  rewrite process_frame_run. unfold trace, wire_message, on_the_wire. simpl.
  destruct (is_LLMFullResponseEndFrame frame); [by case_decide|].
  destruct (as_TextFrame frame); simpl; by case_decide.
Qed.

Lemma process_frame_passed_on frame direction self :
  List.filter (fun c => negb (is_send_json c)) (trace (process_frame frame direction self))
  = [passed_on direction frame].
Proof.
  rewrite process_frame_run. unfold trace, passed_on, on_the_wire. simpl.
  destruct (is_LLMFullResponseEndFrame frame); [by case_decide|].
  destruct (as_TextFrame frame); [|done]. by case_decide.
Qed.

(** X10. For any frames in any order: on a connected socket the relay calls
    [send_json] once per text frame and per end of response, in the order
    of the frames and whether or not an earlier call failed, and not for
    other frames; on a socket that is not connected it does not call it.
    [process_frame] never raises, also when a send fails, and leaves the
    relay as it was. *)
Theorem frames_sent_in_order :
  forall (frames : list Frame) (direction : FrameDirection) (self : OutputTransport),
    let r := process_frames frames direction self in
    sent (trace r)
    = (if decide (client_state (_websocket self) = CONNECTED)
       then omap (wire_message (_interruptible self)) frames
       else [])
    /\ result r = Return tt
    /\ fields r = self.
Proof.
  intros frames direction self r. subst r.
  induction frames as [|frame rest (IHs & IHr & IHf)].
  - simpl. by case_decide.
  - rewrite process_frames_cons. unfold result at 1, fields at 1, trace at 1. cbn [fst snd].
    split; [|done]. rewrite sent_app, IHs, process_frame_sent.
    case_decide; [|done]. simpl. by destruct (wire_message _ frame).
Qed.

(** X11. Whatever the socket does, every frame leaves [process_frame] exactly
    once, in order: text frames and ends of response are pushed on in their
    direction, every other frame goes to the base class. *)
Theorem every_frame_is_passed_on :
  forall (frames : list Frame) (direction : FrameDirection) (self : OutputTransport),
    List.filter (fun c => negb (is_send_json c))
      (trace (process_frames frames direction self))
    = map (passed_on direction) frames.
Proof.
  intros frames direction self. induction frames as [|frame rest IH]; [done|].
  rewrite process_frames_cons. unfold trace at 1. cbn [snd].
  by rewrite List.filter_app, process_frame_passed_on, IH.
Qed.

(** *** The message of each operation *)

(** X12. Every operation that passes its argument check hands [_send_json]
    one message, whose [type] names the operation and whose keys are those
    of the operation and no others: [handoffData] and the two languages are
    there exactly when given (an empty string is given), [interruptible] of
    a [play] always. *)
Theorem operation_message_shape :
  forall (op : operation) (self : OutputTransport),
    precondition op = true ->
    exists message,
      perform op self = _send_json message self
      /\ message !! "type" = Some (VStr (kind op))
      /\ dom message = keys op.
Proof.
  intros op self Hpre.
  destruct op as [token| |h|s l i p|d|tts tr]; simpl.
  - exists (text_message token (_interruptible self)).
    split; [by rewrite send_text_token_run, send_json_run|].
    split; [done|]. unfold text_message. rewrite !dom_insert_L, dom_singleton_L. set_solver.
  - exists last_message. split; [done|]. split; [done|].
    unfold last_message. rewrite !dom_insert_L, dom_singleton_L. set_solver.
  - destruct h as [h|]; eexists; (split; [reflexivity|]); (split; [done|]);
      rewrite ?dom_insert_L, dom_singleton_L; simpl; set_solver.
  - unfold send_play, bind, get. simpl.
    destruct i as [b|]; eexists; rewrite !send_json_run;
      (split; [reflexivity|]);
      (split; [done|]); rewrite !dom_insert_L, dom_singleton_L; set_solver.
  - eexists. split; [reflexivity|]. split; [done|].
    rewrite !dom_insert_L, dom_singleton_L. set_solver.
  - destruct tts as [t|], tr as [r|]; try done;
      eexists; (split; [reflexivity|]); (split; [done|]);
      rewrite ?dom_insert_L, dom_singleton_L; simpl; set_solver.
Qed.

(** X12 at the end of a session with empty handoff data, on a closed socket. *)
Lemma operation_message_shape_witness :
  exists message,
    perform (op_end_session (Some "")) dead_output = _send_json message dead_output
    /\ message !! "type" = Some (VStr "end")
    /\ dom message = ({[ "type" ]} ∪ {[ "handoffData" ]} : gset string).
Proof.
  apply (operation_message_shape (op_end_session (Some "")) dead_output). reflexivity.
Defined.

(** *** Who may interrupt *)

(** X13. A text token carries the relay's [interruptible]; the last token is
    never interruptible; a [play] carries the caller's [interruptible] when
    given, [False] included, and the relay's otherwise, next to its source,
    loop count and [preemptible] as given. *)
Theorem interruptible_of_each_message :
  forall (self : OutputTransport) (token : value) (source : string) (loop : Z)
         (interruptible : option bool) (preemptible : bool),
    (exists message,
        _send_text_token token self = _send_json message self
        /\ message !! "interruptible" = Some (VBool (_interruptible self)))
    /\ (exists message,
          _send_last_token self = _send_json message self
          /\ message !! "interruptible" = Some (VBool false))
    /\ (exists message,
          send_play source loop interruptible preemptible self = _send_json message self
          /\ message !! "interruptible"
             = Some (VBool (default (_interruptible self) interruptible))
          /\ message !! "source" = Some (VStr source)
          /\ message !! "loop" = Some (VInt loop)
          /\ message !! "preemptible" = Some (VBool preemptible)).
Proof.
  intros self token source loop interruptible preemptible. split; [|split].
  - exists (text_message token (_interruptible self)).
    split; [by rewrite send_text_token_run, send_json_run|done].
  - by exists last_message.
  - unfold send_play, bind, get. simpl.
    destruct interruptible as [b|]; eexists; rewrite !send_json_run;
      (split; [reflexivity|done]).
Qed.

End OutputProperties.

(** ** The session façade *)

Module TransportProperties.

Import Transport.

(** C9. Whatever configuration the caller supplies (or none), after
    construction the configuration the façade holds has all four media flags
    off, and the inbound and the outbound relay hold that same object; a
    supplied configuration is the object itself, changed in place. *)
Theorem facade_disables_media :
  forall (websocket : WebSocket) (params : option ref)
         (callbacks : option ConversationRelayCallbacks) (interruptible : bool)
         (store : gmap ref TransportParams),
    match params with
    | Some r => is_Some (store !! r)
    | None => True
    end ->
    let made := __init__ websocket params callbacks interruptible store in
    made.2 !! _params made.1 = Some disabled
    /\ Input._params (_input made.1) = _params made.1
    /\ Output._params (_output made.1) = _params made.1
    /\ match params with
       | Some r => _params made.1 = r
       | None => _params made.1 ∉ dom store
       end.
Proof.
  intros websocket params callbacks interruptible store Hlive made. subst made.
  unfold __init__. destruct params as [r|]; simpl.
  - destruct Hlive as [p Hp]. by rewrite lookup_alter_eq, Hp.
  - rewrite lookup_alter_eq, lookup_insert_eq. repeat split. apply is_fresh.
Qed.

(** C9 with every medium asked for. *)
Lemma facade_disables_media_witness :
  (__init__ live_socket (Some 5%positive) None true one_enabled).2 !! 5%positive
    = Some disabled
  /\ Input._params (_input (__init__ live_socket (Some 5%positive) None true one_enabled).1)
     = 5%positive
  /\ Output._params (_output (__init__ live_socket (Some 5%positive) None true one_enabled).1)
     = 5%positive
  /\ 5%positive = 5%positive.
Proof.
  apply (facade_disables_media live_socket (Some 5%positive) None true one_enabled).
  vm_compute. eauto.
Defined.

Lemma disable_media_disabled p : disable_media p = disabled.
Proof. reflexivity. Qed.

(** X14. Building the façade changes no configuration object but its own:
    every other object of the store is as before.  Given a configuration it
    allocates nothing; given none it allocates exactly one object. *)
Theorem facade_touches_one_object :
  forall (websocket : WebSocket) (params : option ref)
         (callbacks : option ConversationRelayCallbacks) (interruptible : bool)
         (store : gmap ref TransportParams),
    let made := __init__ websocket params callbacks interruptible store in
    (forall r, r <> _params made.1 -> made.2 !! r = store !! r)
    /\ dom made.2 = match params with
                    | Some _ => dom store
                    | None => {[ _params made.1 ]} ∪ dom store
                    end
    /\ match params with
       | Some _ => size made.2 = size store
       | None => size made.2 = S (size store)
       end.
Proof.
  intros websocket params callbacks interruptible store made. subst made.
  unfold __init__. destruct params as [p|]; simpl.
  - split; [|split].
    + intros r Hr. by rewrite lookup_alter_ne.
    + by rewrite dom_alter_L.
    + rewrite <- !size_dom. by rewrite dom_alter_L.
  - split; [|split].
    + intros r Hr. by rewrite lookup_alter_ne, lookup_insert_ne.
    + by rewrite dom_alter_L, dom_insert_L.
    + rewrite <- !size_dom. rewrite dom_alter_L, dom_insert_L.
      rewrite size_union, size_singleton; [done|].
      apply disjoint_singleton_l, is_fresh.
Qed.

(** X15. A second façade built on the configuration of a first one leaves
    the store as the first one left it, and the relays of both hold that
    one object. *)
Theorem facade_twice_on_one_object :
  forall (websocket websocket' : WebSocket) (params : option ref)
         (callbacks callbacks' : option ConversationRelayCallbacks)
         (interruptible interruptible' : bool) (store : gmap ref TransportParams),
    let first := __init__ websocket params callbacks interruptible store in
    let second :=
      __init__ websocket' (Some (_params first.1)) callbacks' interruptible' first.2 in
    second.2 = first.2
    /\ _params second.1 = _params first.1
    /\ Input._params (input second.1) = Input._params (input first.1)
    /\ Output._params (output second.1) = Output._params (output first.1).
Proof.
  intros websocket websocket' params callbacks callbacks' interruptible interruptible'
    store first second. subst first second.
  unfold __init__. destruct params as [p|]; simpl;
    (split; [|done]); rewrite alter_alter_eq; by apply alter_ext.
Qed.

End TransportProperties.

(** ** The TwiML generator *)

Module TwimlProperties.

Import Twiml.

Lemma lower_str_bool b : lower (str_bool b) = spelled b.
Proof. by destruct b. Qed.

Lemma lookup_set_if_given_eq key x (m : gmap string string) :
  m !! key = None -> set_if_given key x m !! key = x.
Proof. intros H. destruct x; simpl; [apply lookup_insert_eq|done]. Qed.

Lemma lookup_set_if_given_ne key key' x (m : gmap string string) :
  key <> key' -> set_if_given key x m !! key' = m !! key'.
Proof. intros H. destruct x; simpl; [by apply lookup_insert_ne|done]. Qed.

Lemma dom_set_if_given key x (m : gmap string string) :
  dom (set_if_given key x m) = key_if x key ∪ dom m.
Proof. destruct x; simpl; [by rewrite dom_insert_L|by rewrite (left_id_L ∅ (∪))]. Qed.

Ltac look_up :=
  unfold attrs; cbv zeta;
  repeat (rewrite lookup_set_if_given_ne by done);
  try (rewrite lookup_set_if_given_eq;
       [|repeat (rewrite lookup_set_if_given_ne by done); reflexivity]);
  rewrite ?lower_str_bool; try reflexivity.

(** X16. The attributes handed to [connect.conversation_relay]: the seven
    that are always set carry their arguments, the two flags spelled [true]
    or [false]; each of the nine others is there exactly when its argument
    is not [None], with the argument's value, a flag spelled the same way.
    No attribute overwrites another. *)
Theorem attrs_hold_the_arguments :
  forall (a : arguments),
    attrs a !! "url" = Some (websocket_url a)
    /\ attrs a !! "tts_provider" = Some (tts_provider a)
    /\ attrs a !! "voice" = Some (voice a)
    /\ attrs a !! "transcription_provider" = Some (transcription_provider a)
    /\ attrs a !! "transcription_language" = Some (transcription_language a)
    /\ attrs a !! "interruptible" = Some (spelled (interruptible a))
    /\ attrs a !! "dtmf_detection" = Some (spelled (dtmf_detection a))
    /\ attrs a !! "tts_language" = tts_language a
    /\ attrs a !! "speech_model" = speech_model a
    /\ attrs a !! "hints" = hints a
    /\ attrs a !! "welcome_greeting" = welcome_greeting a
    /\ attrs a !! "welcome_greeting_interruptible"
       = spelled <$> welcome_greeting_interruptible a
    /\ attrs a !! "interrupt_sensitivity" = interrupt_sensitivity a
    /\ attrs a !! "preemptible" = spelled <$> preemptible a
    /\ attrs a !! "report_input_during_agent_speech"
       = spelled <$> report_input_during_agent_speech a
    /\ attrs a !! "elevenlabs_text_normalization" = elevenlabs_text_normalization a.
Proof.
  intros a. repeat split; look_up;
    match goal with |- _ <$> ?x = _ <$> ?x => by destruct x as [[]|] | _ => idtac end.
Qed.

Lemma key_if_fmap {A B} (f : A -> B) (x : option A) key :
  key_if (f <$> x) key = key_if x key.
Proof. by destruct x. Qed.

Lemma size_key_if_union {A} (x : option A) key (X : gset string) :
  size (key_if x key ∪ X) <= S (size X).
Proof.
  destruct x; simpl.
  - rewrite size_union_alt, size_singleton.
    apply le_n_S, subseteq_size, subseteq_difference_l. done.
  - rewrite (left_id_L ∅ (∪)). lia.
Qed.

(** X17. The names of the attributes are the seven that are always set and
    those of the optional arguments given: between 7 and 16 in all, and the
    seven alone when only the URL is given. *)
Theorem attrs_names :
  forall (a : arguments),
    dom (attrs a) = set_on_request a ∪ always_set
    /\ 7 <= size (attrs a) <= 16
    /\ dom (attrs (defaults (websocket_url a))) = always_set.
Proof.
  intros a.
  assert (Hdom : forall a, dom (attrs a) = set_on_request a ∪ always_set).
  { clear a. intros a. unfold attrs. cbv zeta. rewrite !dom_set_if_given.
    rewrite !dom_insert_L, dom_singleton_L.
    unfold set_on_request, always_set.
    rewrite !key_if_fmap.
    apply set_eq. intros key. rewrite !elem_of_union. tauto. }
  split; [done|]. split.
  - rewrite <- size_dom, Hdom. split.
    + transitivity (size always_set); [by vm_compute|].
      apply subseteq_size, union_subseteq_r.
    + unfold set_on_request. rewrite <- !(assoc_L (∪)).
      do 9 (etransitivity; [apply size_key_if_union|apply le_n_S]).
      by vm_compute.
  - rewrite Hdom. unfold set_on_request, defaults. simpl. set_solver.
Qed.

End TwimlProperties.
